(** * The selective drop command of a pipeline: dlt/pipeline/helpers.py

    A shallow embedding of [DropCommand] and [drop]: the plan computed by
    [__init__], the state rewrite of [_create_modified_state], and the
    sequencing of [__call__].  Python objects that the command mutates or
    aliases (the state dictionaries) live in an explicit heap; the calls the
    command makes on the pipeline and on the destination are recorded, in
    order, in a trace, and an oracle of the pipeline decides which of them
    raise. *)

From Stdlib Require Import Ascii String.
From stdpp Require Import base gmap strings list fin_maps.

Local Open Scope string_scope.
Local Open Scope list_scope.

(** ** Ordered dictionaries

    Python dictionaries keep insertion order and the command iterates over
    them, so they are association lists. *)

Section alist.
Context {V : Type}.

Fixpoint alist_lookup (k : string) (d : list (string * V)) : option V :=
  match d with
  | [] => None
  | (k', v) :: r => if decide (k' = k) then Some v else alist_lookup k r
  end.

(** [del d[k]] once the key is known to be there. *)
Fixpoint alist_delete (k : string) (d : list (string * V)) : list (string * V) :=
  match d with
  | [] => []
  | (k', v) :: r =>
      if decide (k' = k) then alist_delete k r else (k', v) :: alist_delete k r
  end.

(** [d[k] = v]: an existing key keeps its position, a new one goes last. *)
Fixpoint alist_set (k : string) (v : V) (d : list (string * V)) : list (string * V) :=
  match d with
  | [] => [(k, v)]
  | (k', v') :: r =>
      if decide (k' = k) then (k, v) :: r else (k', v') :: alist_set k v r
  end.

(** [d.update(other)]. *)
Definition alist_update (d other : list (string * V)) : list (string * V) :=
  foldl (fun acc kv => alist_set kv.1 kv.2 acc) d other.

Definition alist_keys (d : list (string * V)) : list string := d.*1.
Definition alist_values (d : list (string * V)) : list V := d.*2.
End alist.

(** ** The state tree *)

Local Unset Elimination Schemes.
Inductive Json : Type :=
| JNull
| JBool (b : bool)
| JNum (n : Z)
| JStr (s : string)
| JList (l : list Json)
| JDict (d : list (string * Json)).
Local Set Elimination Schemes.

Abbreviation Dict := (list (string * Json)).

(** ** Tables and schemas *)

(** [TTableSchema]: the command reads [tbl['name']]; the owning resource and
    the parent link are what the schema utilities group and order by. *)
Record TTableSchema := {
  tbl_name : string;
  tbl_resource : option string;
  tbl_parent : option string;
}.

#[global] Instance TTableSchema_eq_dec : EqDecision TTableSchema.
Proof. solve_decision. Defined.

Record Schema := {
  schema_name : string;
  schema_tables : list (string * TTableSchema);
  schema_version : Z;
}.

#[global] Instance Schema_eq_dec : EqDecision Schema.
Proof. solve_decision. Defined.

Definition set_schema_tables (s : Schema) (t : list (string * TTableSchema)) : Schema :=
  {| schema_name := schema_name s; schema_tables := t;
     schema_version := schema_version s |}.

(** Modelled from the spec: [Schema.bump_version] is not part of this file;
    the schema mutator "increments the schema version" (section 4.4). *)
Definition bump_version (s : Schema) : Schema :=
  {| schema_name := schema_name s; schema_tables := schema_tables s;
     schema_version := (schema_version s + 1)%Z |}.

(** ** Exceptions and results *)

Inductive Exn : Type :=
| KeyError (key : string)
| PipelineHasPendingDataException (pipeline_name pipelines_dir : string)
| CollaboratorError (msg : string)
| NonException (msg : string).

(** [except Exception] catches everything but the exits that derive from
    [BaseException] only (KeyboardInterrupt, SystemExit). *)
Definition is_Exception (e : Exn) : bool :=
  match e with
  | NonException _ => false
  | _ => true
  end.

Inductive Result (A : Type) : Type :=
| Ok (a : A)
| Raise (e : Exn).
Arguments Ok {A} a.
Arguments Raise {A} e.

(** State and exceptions: what a statement has changed before it raises
    stays changed. *)
Definition M (S A : Type) : Type := S -> Result A * S.

#[global] Instance M_ret {S} : MRet (M S) := fun A a s => (Ok a, s).
#[global] Instance M_bind {S} : MBind (M S) := fun A B f m s =>
  match m s with
  | (Ok a, s') => f a s'
  | (Raise e, s') => (Raise e, s')
  end.

Definition raise {S A} (e : Exn) : M S A := fun s => (Raise e, s).
Definition get {S} : M S S := fun s => (Ok s, s).
Definition put {S} (s : S) : M S unit := fun _ => (Ok tt, s).

(** [try: m except Exception: h; raise]. *)
Definition try_except_reraise {S A} (m : M S A) (h : M S unit) : M S A := fun s =>
  match m s with
  | (Ok a, s') => (Ok a, s')
  | (Raise e, s') =>
      if is_Exception e then
        match h s' with
        | (Ok _, s'') => (Raise e, s'')
        | (Raise e', s'') => (Raise e', s'')
        end
      else (Raise e, s')
  end.

(** ** The pipeline and the world around it *)

Abbreviation loc := nat.

(** Calls on the pipeline, its storages and the destination clients. *)
Inductive Call : Type :=
| client_drop_tables (schema : Schema) (names : list string)
| client_drop_dataset (schema_name : string)
| pipeline_drop
| pipeline_sync_destination
| managed_state (extract_state extract_unchanged : bool)
| schemas_save_schema (schema : Schema)
| pipeline_normalize
| pipeline_load (raise_on_failed_jobs : bool)
| wipe_normalized_packages.

#[global] Instance Call_eq_dec : EqDecision Call.
Proof. solve_decision. Defined.

(** What the [state] property of the pipeline hands out: the dictionary the
    pipeline itself holds, or a copy of it. *)
Inductive StateAccess : Type := HandsOutLive | HandsOutCopy.

(** Modelled from the spec: the [Pipeline] class is not part of this file.
    Section 6 lists what the command consumes: [state], [schemas],
    [dataset_name], [pipeline_name], [pipelines_dir], [has_pending_data],
    [managed_state], [normalize], [load], [drop], [sync_destination], the
    destination and sql clients and the load storage.  [state_loc] is the
    dictionary [managed_state] yields; [fails] tells, from the calls made so
    far, whether the next call raises. *)
Record Pipeline := {
  pipeline_name : string;
  pipelines_dir : string;
  dataset_name : string;
  default_schema_name : string;
  has_pending_data : bool;
  state_access : StateAccess;
  state_loc : loc;
  fails : list Call -> Call -> option Exn;
}.

Record World := {
  heap : gmap loc Dict;
  schemas : gmap string Schema;
  trace : list Call;
}.

Definition set_heap (w : World) (h : gmap loc Dict) : World :=
  {| heap := h; schemas := schemas w; trace := trace w |}.
Definition set_schemas (w : World) (s : gmap string Schema) : World :=
  {| heap := heap w; schemas := s; trace := trace w |}.
Definition set_trace (w : World) (t : list Call) : World :=
  {| heap := heap w; schemas := schemas w; trace := t |}.

(** The dictionary behind a reference. *)
Definition deref (h : gmap loc Dict) (l : loc) : Dict := default [] (h !! l).

(** [pipeline.state]. *)
Definition pipeline_state (p : Pipeline) : M World loc := fun w =>
  match state_access p with
  | HandsOutLive => (Ok (state_loc p), w)
  | HandsOutCopy =>
      let l := fresh ({[state_loc p]} ∪ dom (heap w)) in
      (Ok l, set_heap w (<[l := deref (heap w) (state_loc p)]> (heap w)))
  end.

(** [pipeline.schemas[name]]. *)
Definition pipeline_schemas_getitem (name : string) : M World Schema := fun w =>
  match schemas w !! name with
  | Some s => (Ok s, w)
  | None => (Raise (KeyError name), w)
  end.

(** A call on a collaborator: it is recorded, then it returns or raises. *)
Definition call (p : Pipeline) (c : Call) : M World unit := fun w =>
  let w' := set_trace w (trace w ++ [c]) in
  match fails p (trace w) c with
  | Some e => (Raise e, w')
  | None => (Ok tt, w')
  end.

(** ** Collaborators

    Pattern and path compilation, the grouping of tables by resource and the
    state helpers of [dlt.common] are imported by the command and are not
    part of this file: the command is modelled over their interface. *)

Class Collaborators := {
  REPattern : Type;
  JSONPath : Type;
  compile_simple_regexes : list string -> Result REPattern;
  pattern_match : REPattern -> string -> bool;
  compile_paths : list string -> Result (list JSONPath);
  group_tables_by_resource :
    list (string * TTableSchema) -> REPattern -> list (string * list TTableSchema);
  resolve_paths : list JSONPath -> Json -> list string;
  _delete_source_state_keys : list string -> Json -> Json;
  _get_matching_resources : option REPattern -> Json -> list string;
  _reset_resource_state : string -> Json -> Json;
}.

(** Modelled from the spec: [sources_state] is not part of this file; the
    state tree is "scoped per source" under its [sources] entry
    (section 3). *)
Definition sources_state (state : Dict) : Dict :=
  match alist_lookup "sources" state with
  | Some (JDict sources) => sources
  | _ => []
  end.

(** The source states are nested dictionaries of the state object: what the
    loop does to them in place shows in the object. *)
Definition with_sources (state sources : Dict) : Dict :=
  match alist_lookup "sources" state with
  | Some (JDict _) => alist_set "sources" (JDict sources) state
  | _ => state
  end.

(** An argument that is a string or a collection of strings. *)
Inductive StrOrSeq : Type :=
| Str (s : string)
| Seq (l : list string).

(** [if isinstance(x, str): x = [x]]. *)
Definition as_list (x : StrOrSeq) : list string :=
  match x with
  | Str s => [s]
  | Seq l => l
  end.

(** [schema_name or default]: [None] and the empty string are falsy. *)
Definition or_default (schema_name : option string) (d : string) : string :=
  match schema_name with
  | Some n => if decide (n = "") then d else n
  | None => d
  end.

Definition lift_result {S A} (r : Result A) : M S A := fun s => (r, s).

Fixpoint for_each {S A} (l : list A) (f : A -> M S unit) : M S unit :=
  match l with
  | [] => mret tt
  | x :: r => f x ;; for_each r f
  end.

Section DropCommand.
Context `{Collaborators}.

Record _DropInfo := {
  info_tables : list string;
  info_resource_states : list string;
  info_resource_names : list string;
  info_state_paths : list string;
  info_schema_name : string;
  info_dataset_name : string;
  info_drop_all : bool;
  info_resource_pattern : option REPattern;
}.

(** The attributes of a [DropCommand]; [schema_tables] of the source is
    another name of [schema.tables]. *)
Record DropCommand := {
  pipeline : Pipeline;
  schema : Schema;
  drop_tables : bool;
  drop_state : bool;
  resource_pattern : option REPattern;
  tables_to_drop : list TTableSchema;
  skip_state_wipe : bool;
  state_paths_to_drop : list JSONPath;
  drop_all : bool;
  info : _DropInfo;
  _new_state : loc;
}.

Definition set_schema (self : DropCommand) (s : Schema) : DropCommand :=
  {| pipeline := pipeline self; schema := s; drop_tables := drop_tables self;
     drop_state := drop_state self; resource_pattern := resource_pattern self;
     tables_to_drop := tables_to_drop self; skip_state_wipe := skip_state_wipe self;
     state_paths_to_drop := state_paths_to_drop self; drop_all := drop_all self;
     info := info self; _new_state := _new_state self |}.

Definition set_drop_state (self : DropCommand) (b : bool) : DropCommand :=
  {| pipeline := pipeline self; schema := schema self; drop_tables := drop_tables self;
     drop_state := b; resource_pattern := resource_pattern self;
     tables_to_drop := tables_to_drop self; skip_state_wipe := skip_state_wipe self;
     state_paths_to_drop := state_paths_to_drop self; drop_all := drop_all self;
     info := info self; _new_state := _new_state self |}.

Definition set_info (self : DropCommand) (i : _DropInfo) : DropCommand :=
  {| pipeline := pipeline self; schema := schema self; drop_tables := drop_tables self;
     drop_state := drop_state self; resource_pattern := resource_pattern self;
     tables_to_drop := tables_to_drop self; skip_state_wipe := skip_state_wipe self;
     state_paths_to_drop := state_paths_to_drop self; drop_all := drop_all self;
     info := i; _new_state := _new_state self |}.

Definition set__new_state (self : DropCommand) (l : loc) : DropCommand :=
  {| pipeline := pipeline self; schema := schema self; drop_tables := drop_tables self;
     drop_state := drop_state self; resource_pattern := resource_pattern self;
     tables_to_drop := tables_to_drop self; skip_state_wipe := skip_state_wipe self;
     state_paths_to_drop := state_paths_to_drop self; drop_all := drop_all self;
     info := info self; _new_state := l |}.

(** [info['resource_states'].append(key)] for each key, then
    [info['state_paths'].extend(paths)]. *)
Definition info_record (i : _DropInfo) (keys paths : list string) : _DropInfo :=
  {| info_tables := info_tables i;
     info_resource_states := info_resource_states i ++ keys;
     info_resource_names := info_resource_names i;
     info_state_paths := info_state_paths i ++ paths;
     info_schema_name := info_schema_name i;
     info_dataset_name := info_dataset_name i;
     info_drop_all := info_drop_all i;
     info_resource_pattern := info_resource_pattern i |}.

(** A method runs on the command object and the world. *)
Definition liftW {A} (m : M World A) : M (DropCommand * World) A := fun s =>
  match m s.2 with
  | (r, w') => (r, (s.1, w'))
  end.

Definition pcall (c : Call) : M (DropCommand * World) unit := fun s =>
  liftW (call (pipeline s.1) c) s.

(** A method called on a given command object. *)
Definition with_self {A} (self : DropCommand) (m : M (DropCommand * World) A)
  : M World (A * DropCommand) := fun w =>
  match m (self, w) with
  | (Ok a, (self', w')) => (Ok (a, self'), w')
  | (Raise e, (_, w')) => (Raise e, w')
  end.

(** *** [_create_modified_state] *)

(** The inner loop: the matching keys are listed once, then reset one by
    one. *)
Definition reset_resources (self : DropCommand) (source_state : Json)
  : list string * Json :=
  if negb (skip_state_wipe self) then
    let keys := _get_matching_resources (resource_pattern self) source_state in
    (keys, foldl (fun s key => _reset_resource_state key s) source_state keys)
  else ([], source_state).

(** [f"{source_name}.{p}"]. *)
Definition qualify (source_name p : string) : string :=
  (source_name ++ "." ++ p)%string.

(** One turn of the outer loop, on one source. *)
Definition drop_source_state (self : DropCommand) (source_name : string)
    (source_state : Json) : list string * list string * Json :=
  let '(keys, source_state) := reset_resources self source_state in
  let resolved_paths := resolve_paths (state_paths_to_drop self) source_state in
  let source_state := _delete_source_state_keys resolved_paths source_state in
  (keys, qualify source_name <$> resolved_paths, source_state).

Fixpoint drop_sources (self : DropCommand) (sources : Dict) (i : _DropInfo)
  : Dict * _DropInfo :=
  match sources with
  | [] => ([], i)
  | (source_name, source_state) :: rest =>
      let '(keys, paths, source_state) :=
        drop_source_state self source_name source_state in
      let '(rest, i) := drop_sources self rest (info_record i keys paths) in
      ((source_name, source_state) :: rest, i)
  end.

Definition _create_modified_state : M (DropCommand * World) loc :=
  '(self, _) ← get;
  state ← liftW (pipeline_state (pipeline self));
  if negb (drop_state self) then mret state
  else
    '(self, w) ← get;
    let d := deref (heap w) state in
    let '(sources, i) := drop_sources self (sources_state d) (info self) in
    put (set_info self i,
         set_heap w (<[state := with_sources d sources]> (heap w))) ;;
    mret state.

(** *** [__init__] *)

(** The attribute [_new_state] before line 102 has assigned it; nothing
    reads it until then. *)
Definition unassigned : loc := 0.

(** Lines 77 to 89: the pattern, the tables to drop, [drop_tables] and the
    resource names.  [self.drop_tables] is still [True] where line 82
    tests it. *)
Definition select_tables (s : Schema) (resources : gset string)
  : Result (option REPattern * list TTableSchema * bool * list string) :=
  if bool_decide (resources ≠ ∅) then
    match compile_simple_regexes (elements resources) with
    | Ok resource_pattern =>
        let resource_tables :=
          group_tables_by_resource (schema_tables s) resource_pattern in
        let tables_to_drop := reverse (concat (alist_values resource_tables)) in
        Ok (Some resource_pattern, tables_to_drop, true, alist_keys resource_tables)
    | Raise e => Raise e
    end
  else Ok (None, [], false, []).

(** [self.info = dict(...)], lines 95 to 101. *)
Definition new_info (p : Pipeline) (s : Schema) (to_drop : list TTableSchema)
    (resource_names : list string) (all : bool) (pat : option REPattern)
  : _DropInfo :=
  {| info_tables := tbl_name <$> to_drop;
     info_resource_states := []; info_state_paths := [];
     info_resource_names := resource_names;
     info_schema_name := schema_name s;
     info_dataset_name := dataset_name p;
     info_drop_all := all;
     info_resource_pattern := pat |}.

(** The attributes as lines 67 to 101 leave them: [drop_state] is [True]
    and [_new_state] is not assigned yet. *)
Definition new_self (p : Pipeline) (s : Schema) (pat : option REPattern)
    (to_drop : list TTableSchema) (dt : bool) (resource_names : list string)
    (skip : bool) (paths : list JSONPath) (all : bool) : DropCommand :=
  {| pipeline := p; schema := s; drop_tables := dt;
     drop_state := true; resource_pattern := pat;
     tables_to_drop := to_drop; skip_state_wipe := skip;
     state_paths_to_drop := paths; drop_all := all;
     info := new_info p s to_drop resource_names all pat;
     _new_state := unassigned |}.

(** Lines 103 and 104. *)
Definition settle_drop_state (self : DropCommand) : DropCommand :=
  if skip_state_wipe self && bool_decide (state_paths_to_drop self = [])
  then set_drop_state self false
  else self.

Definition __init__ (pipeline : Pipeline) (resources : StrOrSeq)
    (schema_name : option string) (state_paths : StrOrSeq)
    (drop_all skip_state_wipe : bool) : M World DropCommand :=
  let resources := as_list resources in
  let state_paths := as_list state_paths in
  (* [.clone()]: the command works on its own schema value *)
  schema ← pipeline_schemas_getitem
             (or_default schema_name (default_schema_name pipeline));
  let resources : gset string := list_to_set resources in
  '(resource_pattern, tables_to_drop, drop_tables, resource_names) ←
    lift_result (select_tables schema resources);
  let skip_state_wipe := skip_state_wipe || negb (bool_decide (is_Some resource_pattern)) in
  state_paths_to_drop ← lift_result (compile_paths state_paths);
  let self := new_self pipeline schema resource_pattern tables_to_drop drop_tables
                resource_names skip_state_wipe state_paths_to_drop drop_all in
  '(new_state, self) ← with_self self _create_modified_state;
  mret (settle_drop_state (set__new_state self new_state)).

(** *** The steps of [__call__] *)

Definition _drop_destination_tables : M (DropCommand * World) unit :=
  '(self, _) ← get;
  pcall (client_drop_tables (schema self) (tbl_name <$> tables_to_drop self)).

(** [del self.schema_tables[name]] raises [KeyError] on a missing key. *)
Definition del_schema_table (name : string) : M (DropCommand * World) unit :=
  '(self, w) ← get;
  match alist_lookup name (schema_tables (schema self)) with
  | Some _ =>
      put (set_schema self
             (set_schema_tables (schema self)
                (alist_delete name (schema_tables (schema self)))), w)
  | None => raise (KeyError name)
  end.

Definition _delete_pipeline_tables : M (DropCommand * World) unit :=
  '(self, _) ← get;
  for_each (tbl_name <$> tables_to_drop self) del_schema_table ;;
  '(self, w) ← get;
  put (set_schema self (bump_version (schema self)), w).

(** The handle that [managed_state] yields is the dictionary at
    [state_loc]; [clear] empties it before [update] reads [_new_state]. *)
Definition _drop_state_keys : M (DropCommand * World) unit :=
  pcall (managed_state true true) ;;
  '(self, w) ← get;
  let state := state_loc (pipeline self) in
  let w := set_heap w (<[state := []]> (heap w)) in
  let w := set_heap w (<[state := alist_update (deref (heap w) state)
                                     (deref (heap w) (_new_state self))]> (heap w)) in
  put (self, w).

Definition _drop_all : M (DropCommand * World) unit :=
  '(self, _) ← get;
  pcall (client_drop_dataset (schema_name (schema self))) ;;
  pcall pipeline_drop ;;
  pcall pipeline_sync_destination.

(** [self.pipeline.schemas.save_schema(self.schema)]: the saved schema is
    the one the pipeline serves from then on. *)
Definition save_schema : M (DropCommand * World) unit :=
  '(self, _) ← get;
  pcall (schemas_save_schema (schema self)) ;;
  '(self, w) ← get;
  put (self, set_schemas w (<[schema_name (schema self) := schema self]> (schemas w))).

Definition when {S} (b : bool) (m : M S unit) : M S unit :=
  if b then m else mret tt.

Definition __call__ : M (DropCommand * World) unit :=
  '(self, _) ← get;
  if has_pending_data (pipeline self) then
    raise (PipelineHasPendingDataException
             (pipeline_name (pipeline self)) (pipelines_dir (pipeline self)))
  else if drop_all self then _drop_all
  else if negb (drop_state self) && negb (drop_tables self) then mret tt
  else
    when (drop_tables self) (_delete_pipeline_tables ;; _drop_destination_tables) ;;
    when (drop_state self) _drop_state_keys ;;
    when (drop_tables self) save_schema ;;
    pcall pipeline_normalize ;;
    try_except_reraise (pcall (pipeline_load true)) (pcall wipe_normalized_packages).

(** [drop]: build the command, then call it. *)
Definition drop (pipeline : Pipeline) (resources : StrOrSeq)
    (schema_name : option string) (state_paths : StrOrSeq)
    (drop_all skip_state_wipe : bool) : M World unit :=
  self ← __init__ pipeline resources schema_name state_paths drop_all skip_state_wipe;
  with_self self __call__ ;;
  mret tt.

(** *** The loops as functions *)

(** A source state once the inner loop has reset the matching resources:
    untouched when the wipe is skipped. *)
Definition after_resets (self : DropCommand) (source_state : Json) : Json :=
  if skip_state_wipe self then source_state
  else foldl (fun s key => _reset_resource_state key s) source_state
         (_get_matching_resources (resource_pattern self) source_state).

(** The keys the inner loop appends to [info['resource_states']]. *)
Definition reset_keys (self : DropCommand) (source_state : Json) : list string :=
  if skip_state_wipe self then []
  else _get_matching_resources (resource_pattern self) source_state.

(** The state dictionary once the loop of [_create_modified_state] has gone
    over its sources: every source state has its matching resources reset,
    then loses the paths resolved in it. *)
Definition modified_state (self : DropCommand) (d : Dict) : Dict :=
  with_sources d
    ((fun kv =>
        let st := after_resets self kv.2 in
        (kv.1,
         _delete_source_state_keys (resolve_paths (state_paths_to_drop self) st) st))
     <$> sources_state d).

(** *** Tables: selection and dependency order *)

(** The table belongs to a resource that the pattern matches. *)
Definition selected (pat : REPattern) (t : TTableSchema) : bool :=
  match tbl_resource t with
  | Some r => pattern_match pat r
  | None => false
  end.

Definition is_parent_of (parent child : TTableSchema) : bool :=
  bool_decide (tbl_parent child = Some (tbl_name parent)).

(** No table of the list is followed by its parent. *)
Fixpoint parents_first (l : list TTableSchema) : bool :=
  match l with
  | [] => true
  | t :: rest => forallb (fun u => negb (is_parent_of u t)) rest && parents_first rest
  end.

(** Reverse dependency order: a table never comes after its parent. *)
Definition children_before_parents (l : list TTableSchema) : Prop :=
  forall i j child parent,
    l !! i = Some child -> l !! j = Some parent ->
    tbl_parent child = Some (tbl_name parent) -> i <= j.

(** A table whose parent is in the list belongs to the resource of that
    parent. *)
Definition shares_resource_with_parent (l : list TTableSchema) : bool :=
  forallb (fun child =>
    forallb (fun parent =>
      implb (is_parent_of parent child)
            (bool_decide (tbl_resource child = tbl_resource parent))) l) l.

(** The loop of [_delete_pipeline_tables] on the table dictionary alone:
    how it ends, and the dictionary it leaves. *)
Fixpoint del_loop (names : list string) (t : list (string * TTableSchema))
  : Result unit * list (string * TTableSchema) :=
  match names with
  | [] => (Ok tt, t)
  | n :: r =>
      match alist_lookup n t with
      | Some _ => del_loop r (alist_delete n t)
      | None => (Raise (KeyError n), t)
      end
  end.

(** The heap once [_drop_state_keys] has cleared and refilled the managed
    dictionary. *)
Definition installed (self : DropCommand) (h : gmap loc Dict) : gmap loc Dict :=
  let state := state_loc (pipeline self) in
  let h1 := <[state := []]> h in
  <[state := alist_update (deref h1 state) (deref h1 (_new_state self))]> h1.

(** *** [_list_state_paths] *)

Definition _list_state_paths (self : DropCommand) (source_state : Json)
  : list string :=
  resolve_paths (state_paths_to_drop self) source_state.
End DropCommand.

(** ** A model of the collaborators

    Enough of the imported helpers to run the command on examples. *)

Module SpecModel.

(** Splits [a.b.c] at the dots. *)
Fixpoint split_dots (s cur : string) : list string :=
  match s with
  | EmptyString => [cur]
  | String c r =>
      if Ascii.eqb c "."%char then cur :: split_dots r ""
      else split_dots r (cur ++ String c "")%string
  end.

Fixpoint json_has (keys : list string) (j : Json) : bool :=
  match keys with
  | [] => true
  | k :: ks =>
      match j with
      | JDict d =>
          match alist_lookup k d with
          | Some v => json_has ks v
          | None => false
          end
      | _ => false
      end
  end.

(** Removes the addressed node; a path whose parent is missing is left
    alone. *)
Fixpoint json_delete (keys : list string) (j : Json) : Json :=
  match keys with
  | [] => j
  | k :: ks =>
      match j with
      | JDict d =>
          match ks with
          | [] => JDict (alist_delete k d)
          | _ :: _ =>
              match alist_lookup k d with
              | Some v => JDict (alist_set k (json_delete ks v) d)
              | None => j
              end
          end
      | _ => j
      end
  end.

Definition matches (pat : list string) (name : string) : bool :=
  bool_decide (name ∈ pat).

(** Modelled from the spec: [group_tables_by_resource] "groups only tables
    whose resource name matches; resources with no matching table are
    omitted" (section 4.1); the tables of a group come in schema order. *)
Definition group_tables (tables : list (string * TTableSchema)) (pat : list string)
  : list (string * list TTableSchema) :=
  foldl (fun acc kv =>
           match tbl_resource kv.2 with
           | Some r =>
               if matches pat r
               then alist_set r (default [] (alist_lookup r acc) ++ [kv.2]) acc
               else acc
           | None => acc
           end) [] tables.

(** The step of the loop of [group_tables]. *)
Abbreviation group_step pat :=
  (fun (acc : list (string * list TTableSchema)) (kv : string * TTableSchema) =>
     match tbl_resource kv.2 with
     | Some r =>
         if matches pat r
         then alist_set r (default [] (alist_lookup r acc) ++ [kv.2]) acc
         else acc
     | None => acc
     end).

(** Modelled from the spec: [resolve_paths] "returns every concrete path
    in tree matched by any compiled expression, de-duplicated"
    (section 4.2); the expressions are dotted key paths. *)
Definition resolve (paths : list string) (tree : Json) : list string :=
  remove_dups (filter (fun p => json_has (split_dots p "") tree = true) paths).

(** Modelled from the spec: [_delete_source_state_keys] "removes each
    resolved path's node" (section 4.5). *)
Definition delete_keys (paths : list string) (tree : Json) : Json :=
  foldl (fun t p => json_delete (split_dots p "") t) tree paths.

(** Modelled from the spec: [_get_matching_resources] "returns resource
    keys present in a state node whose name matches" (section 4.1). *)
Definition matching_resources (pat : option (list string)) (node : Json)
  : list string :=
  match pat, node with
  | Some pat, JDict d => filter (fun k => matches pat k = true) (alist_keys d)
  | _, _ => []
  end.

(** Modelled from the spec: [_reset_resource_state] "removes the entire
    sub-tree for that resource key, leaving sibling resources untouched"
    (section 4.5). *)
Definition reset_resource (key : string) (node : Json) : Json :=
  match node with
  | JDict d => JDict (alist_delete key d)
  | _ => node
  end.

(** Modelled from the spec: selectors are exact resource names, a compiled
    pattern is their list, a compiled path set the list of expressions
    (sections 4.1 and 4.2). *)
#[export] Instance collaborators : Collaborators := {|
  REPattern := list string;
  JSONPath := string;
  compile_simple_regexes := Ok;
  pattern_match := matches;
  compile_paths := Ok;
  group_tables_by_resource := group_tables;
  resolve_paths := resolve;
  _delete_source_state_keys := delete_keys;
  _get_matching_resources := matching_resources;
  _reset_resource_state := reset_resource;
|}.

(** *** A pipeline with one schema and one source *)

Definition users : TTableSchema :=
  {| tbl_name := "users"; tbl_resource := Some "users"; tbl_parent := None |}.
Definition users__addresses : TTableSchema :=
  {| tbl_name := "users__addresses"; tbl_resource := Some "users";
     tbl_parent := Some "users" |}.
Definition orders : TTableSchema :=
  {| tbl_name := "orders"; tbl_resource := Some "orders"; tbl_parent := None |}.

Definition shop : Schema :=
  {| schema_name := "shop";
     schema_tables := [("users", users); ("users__addresses", users__addresses);
                       ("orders", orders)];
     schema_version := 7 |}.

Definition state0 : Dict :=
  [("_state_version", JNum 3);
   ("sources",
    JDict [("shop",
            JDict [("users", JDict [("cursor", JNum 41)]);
                   ("orders", JDict [("cursor", JNum 9)]);
                   ("config", JDict [("token", JStr "t0")])])])].

Definition never_fails : list Call -> Call -> option Exn := fun _ _ => None.

Definition load_fails : list Call -> Call -> option Exn := fun _ c =>
  match c with
  | pipeline_load _ => Some (CollaboratorError "load failed")
  | _ => None
  end.

Definition pipe (pending : bool) (access : StateAccess)
    (oracle : list Call -> Call -> option Exn) : Pipeline :=
  {| pipeline_name := "p"; pipelines_dir := "/var/dlt"; dataset_name := "shop_data";
     default_schema_name := "shop"; has_pending_data := pending;
     state_access := access; state_loc := 1; fails := oracle |}.

Definition world0 : World :=
  {| heap := {[1 := state0]}; schemas := {["shop" := shop]}; trace := [] |}.

(** *** The commands that [__init__] builds on [world0] *)

(** The state once the resource [users] is reset. *)
Definition state_without_users : Dict :=
  [("_state_version", JNum 3);
   ("sources",
    JDict [("shop",
            JDict [("orders", JDict [("cursor", JNum 9)]);
                   ("config", JDict [("token", JStr "t0")])])])].

(** The state once the path [config.token] is deleted. *)
Definition state_without_token : Dict :=
  [("_state_version", JNum 3);
   ("sources",
    JDict [("shop",
            JDict [("users", JDict [("cursor", JNum 41)]);
                   ("orders", JDict [("cursor", JNum 9)]);
                   ("config", JDict [])])])].

(** [DropCommand(p, ["users"])]. *)
Definition users_command (p : Pipeline) (new_state : loc) : DropCommand :=
  {| pipeline := p; schema := shop; drop_tables := true; drop_state := true;
     resource_pattern := Some ["users"];
     tables_to_drop := [users__addresses; users];
     skip_state_wipe := false; state_paths_to_drop := []; drop_all := false;
     info := {| info_tables := ["users__addresses"; "users"];
                info_resource_states := ["users"];
                info_resource_names := ["users"];
                info_state_paths := [];
                info_schema_name := "shop"; info_dataset_name := "shop_data";
                info_drop_all := false;
                info_resource_pattern := Some ["users"] |};
     _new_state := new_state |}.

(** [DropCommand(p, (), state_paths=paths)] when [resolved] are the paths
    found in the state. *)
Definition paths_command (p : Pipeline) (paths resolved : list string)
    (new_state : loc) : DropCommand :=
  {| pipeline := p; schema := shop; drop_tables := false; drop_state := true;
     resource_pattern := None; tables_to_drop := [];
     skip_state_wipe := true; state_paths_to_drop := paths; drop_all := false;
     info := {| info_tables := []; info_resource_states := [];
                info_resource_names := [];
                info_state_paths := resolved;
                info_schema_name := "shop"; info_dataset_name := "shop_data";
                info_drop_all := false;
                info_resource_pattern := None |};
     _new_state := new_state |}.

(** [DropCommand(p, ["users"], drop_all=True)]. *)
Definition drop_all_command (p : Pipeline) (new_state : loc) : DropCommand :=
  {| pipeline := p; schema := shop; drop_tables := true; drop_state := true;
     resource_pattern := Some ["users"];
     tables_to_drop := [users__addresses; users];
     skip_state_wipe := false; state_paths_to_drop := []; drop_all := true;
     info := {| info_tables := ["users__addresses"; "users"];
                info_resource_states := ["users"];
                info_resource_names := ["users"];
                info_state_paths := [];
                info_schema_name := "shop"; info_dataset_name := "shop_data";
                info_drop_all := true;
                info_resource_pattern := Some ["users"] |};
     _new_state := new_state |}.

(** [world0] with a rewritten copy of the state at reference 2. *)
Definition with_copy (d : Dict) : World :=
  {| heap := <[2 := d]> (heap world0); schemas := schemas world0; trace := [] |}.

(** The example pipeline: its [state] property hands out a copy. *)
Definition copying : Pipeline := pipe false HandsOutCopy never_fails.
Definition copying_load_fails : Pipeline := pipe false HandsOutCopy load_fails.
Definition pending : Pipeline := pipe true HandsOutCopy never_fails.

(** [DropCommand(p, ["users"])] as [__call__] leaves it: the two tables are
    gone from its schema and the version is one up. *)
Definition shop_without_users : Schema :=
  {| schema_name := "shop"; schema_tables := [("orders", orders)];
     schema_version := 8 |}.

(** *** Pipelines whose collaborators fail *)

Definition destination_fails : list Call -> Call -> option Exn := fun _ c =>
  match c with
  | client_drop_tables _ _ => Some (CollaboratorError "destination is down")
  | _ => None
  end.

Definition normalize_fails : list Call -> Call -> option Exn := fun _ c =>
  match c with
  | pipeline_normalize => Some (CollaboratorError "normalize failed")
  | _ => None
  end.

Definition load_interrupted : list Call -> Call -> option Exn := fun _ c =>
  match c with
  | pipeline_load _ => Some (NonException "KeyboardInterrupt")
  | _ => None
  end.

Definition load_and_wipe_fail : list Call -> Call -> option Exn := fun _ c =>
  match c with
  | pipeline_load _ => Some (CollaboratorError "load failed")
  | wipe_normalized_packages => Some (CollaboratorError "storage is read-only")
  | _ => None
  end.

(** *** More commands and collaborators for the examples *)

(** The same collaborators, with a pattern compiler that refuses the empty
    selector. *)
Definition strict_collaborators : Collaborators := {|
  REPattern := list string;
  JSONPath := string;
  compile_simple_regexes := fun l =>
    if bool_decide ("" ∈ l) then Raise (CollaboratorError "invalid pattern")
    else Ok l;
  pattern_match := matches;
  compile_paths := Ok;
  group_tables_by_resource := group_tables;
  resolve_paths := resolve;
  _delete_source_state_keys := delete_keys;
  _get_matching_resources := matching_resources;
  _reset_resource_state := reset_resource;
|}.

(** [DropCommand(p, ["users"], skip_state_wipe=True)]: tables only. *)
Definition tables_only_command (p : Pipeline) (new_state : loc) : DropCommand :=
  {| pipeline := p; schema := shop; drop_tables := true; drop_state := false;
     resource_pattern := Some ["users"];
     tables_to_drop := [users__addresses; users];
     skip_state_wipe := true; state_paths_to_drop := []; drop_all := false;
     info := {| info_tables := ["users__addresses"; "users"];
                info_resource_states := [];
                info_resource_names := ["users"];
                info_state_paths := [];
                info_schema_name := "shop"; info_dataset_name := "shop_data";
                info_drop_all := false;
                info_resource_pattern := Some ["users"] |};
     _new_state := new_state |}.

(** *** A [state] property that hands out the dictionary itself *)

Definition live : Pipeline := pipe false HandsOutLive never_fails.
Definition live_pending : Pipeline := pipe true HandsOutLive never_fails.

(** *** A schema that lists a child table before its parent *)

Definition shop_child_first : Schema :=
  {| schema_name := "shop";
     schema_tables := [("users__addresses", users__addresses); ("users", users)];
     schema_version := 7 |}.

Definition world_child_first : World :=
  {| heap := {[1 := state0]}; schemas := {["shop" := shop_child_first]}; trace := [] |}.

End SpecModel.


(** ** [retry_load]

    The retry condition looks at the class of the exception, at the step of
    a [PipelineStepFailed] and at the exception it was raised from. *)

(** [TPipelineStep] is a literal type of strings. *)
Abbreviation TPipelineStep := string (only parsing).

(** An exception as [_retry_load] sees it: [Some step] when it is a
    [PipelineStepFailed] raised in [step], whether it is a
    [TerminalException], and its [__context__]. *)
Local Unset Elimination Schemes.
Inductive PyException : Type :=
| py_exception (step_failed : option TPipelineStep) (terminal : bool)
    (context : option PyException).
Local Set Elimination Schemes.

(** [isinstance(ex, PipelineStepFailed)], with [ex.step]. *)
Definition pipeline_step_failed (ex : PyException) : option TPipelineStep :=
  match ex with
  | py_exception step _ _ => step
  end.

(** [isinstance(ex, TerminalException)]. *)
Definition is_TerminalException (ex : PyException) : bool :=
  match ex with
  | py_exception _ terminal _ => terminal
  end.

(** [ex.__context__]. *)
Definition __context__ (ex : PyException) : option PyException :=
  match ex with
  | py_exception _ _ context => context
  end.

Definition retry_load (retry_on_pipeline_steps : list TPipelineStep)
    (ex : PyException) : bool :=
  (* do not retry in normalize or extract stages *)
  if match pipeline_step_failed ex with
     | Some step => negb (bool_decide (step ∈ retry_on_pipeline_steps))
     | None => false
     end
  then false
  (* do not retry on terminal exceptions *)
  else if is_TerminalException ex
          || match __context__ ex with
             | Some context => is_TerminalException context
             | None => false
             end
  then false
  else true.

(** The default of [retry_on_pipeline_steps]. *)
Definition default_retry_steps : list TPipelineStep := ["load"].

(** Exceptions as [retry_load] sees them. *)
Definition load_step_failed : PyException := py_exception (Some "load") false None.
Definition normalize_step_failed : PyException :=
  py_exception (Some "normalize") false None.
Definition terminal_in_context : PyException :=
  py_exception (Some "load") false (Some (py_exception None true None)).
Definition terminal_two_levels_down : PyException :=
  py_exception (Some "load") false
    (Some (py_exception None false (Some (py_exception None true None)))).

(** * Properties *)

Section Theorems.
Context `{Collaborators}.

Lemma set_schema_same (self : DropCommand) :
  set_schema self (set_schema_tables (schema self) (schema_tables (schema self))) = self.
Proof. destruct self as [? [] ? ? ? ? ? ? ? ? ?]; reflexivity. Qed.

Lemma pcall_run (c : Call) (self : DropCommand) (w : World) :
  pcall c (self, w) =
    (match fails (pipeline self) (trace w) c with
     | Some e => Raise e
     | None => Ok tt
     end, (self, set_trace w (trace w ++ [c]))).
Proof. unfold pcall, liftW, call; simpl. destruct (fails _ _ _); reflexivity. Qed.

Lemma bind_run {S A B} (m : M S A) (f : A -> M S B) (s : S) :
  (m ≫= f) s =
    match m s with
    | (Ok a, s') => f a s'
    | (Raise e, s') => (Raise e, s')
    end.
Proof. reflexivity. Qed.

Lemma del_schema_table_run (n : string) (self : DropCommand) (w : World) :
  del_schema_table n (self, w) =
    match alist_lookup n (schema_tables (schema self)) with
    | Some _ =>
        (Ok tt, (set_schema self
                   (set_schema_tables (schema self)
                      (alist_delete n (schema_tables (schema self)))), w))
    | None => (Raise (KeyError n), (self, w))
    end.
Proof.
  unfold del_schema_table. rewrite bind_run. simpl.
  destruct (alist_lookup n _); reflexivity.
Qed.

Lemma for_each_del_run (names : list string) (self : DropCommand) (w : World) :
  for_each names del_schema_table (self, w) =
    ((del_loop names (schema_tables (schema self))).1,
     (set_schema self
        (set_schema_tables (schema self)
           (del_loop names (schema_tables (schema self))).2), w)).
Proof.
  revert self. induction names as [|n r IH]; intros self; simpl.
  - rewrite set_schema_same. reflexivity.
  - rewrite bind_run, del_schema_table_run.
    destruct (alist_lookup n (schema_tables (schema self))) eqn:E; simpl.
    + rewrite IH. simpl. reflexivity.
    + rewrite set_schema_same. reflexivity.
Qed.

Lemma delete_pipeline_tables_run (self : DropCommand) (w : World) :
  _delete_pipeline_tables (self, w) =
    let '(r, t) := del_loop (tbl_name <$> tables_to_drop self)
                     (schema_tables (schema self)) in
    let s := set_schema_tables (schema self) t in
    match r with
    | Ok _ => (Ok tt, (set_schema self (bump_version s), w))
    | Raise e => (Raise e, (set_schema self s, w))
    end.
Proof.
  unfold _delete_pipeline_tables. rewrite bind_run. simpl.
  rewrite bind_run, for_each_del_run.
  destruct (del_loop _ _) as [[[]|e] t]; simpl; reflexivity.
Qed.

Lemma drop_destination_tables_run (self : DropCommand) (w : World) :
  _drop_destination_tables (self, w) =
    pcall (client_drop_tables (schema self) (tbl_name <$> tables_to_drop self)) (self, w).
Proof. reflexivity. Qed.

Lemma drop_state_keys_run (self : DropCommand) (w : World) :
  _drop_state_keys (self, w) =
    let w1 := set_trace w (trace w ++ [managed_state true true]) in
    match fails (pipeline self) (trace w) (managed_state true true) with
    | Some e => (Raise e, (self, w1))
    | None => (Ok tt, (self, set_heap w1 (installed self (heap w))))
    end.
Proof.
  unfold _drop_state_keys. rewrite bind_run, pcall_run.
  destruct (fails _ _ _); reflexivity.
Qed.

Lemma save_schema_run (self : DropCommand) (w : World) :
  save_schema (self, w) =
    let w1 := set_trace w (trace w ++ [schemas_save_schema (schema self)]) in
    match fails (pipeline self) (trace w) (schemas_save_schema (schema self)) with
    | Some e => (Raise e, (self, w1))
    | None =>
        (Ok tt, (self, set_schemas w1
                         (<[schema_name (schema self) := schema self]> (schemas w))))
    end.
Proof.
  unfold save_schema. rewrite bind_run. simpl. rewrite bind_run, pcall_run.
  destruct (fails _ _ _); reflexivity.
Qed.

Lemma drop_all_run (self : DropCommand) (w : World) :
  _drop_all (self, w) =
    let p := pipeline self in
    let c1 := client_drop_dataset (schema_name (schema self)) in
    match fails p (trace w) c1 with
    | Some e => (Raise e, (self, set_trace w (trace w ++ [c1])))
    | None =>
        match fails p (trace w ++ [c1]) pipeline_drop with
        | Some e => (Raise e, (self, set_trace w (trace w ++ [c1; pipeline_drop])))
        | None =>
            (match fails p (trace w ++ [c1; pipeline_drop]) pipeline_sync_destination with
             | Some e => Raise e
             | None => Ok tt
             end,
             (self, set_trace w (trace w ++ [c1; pipeline_drop; pipeline_sync_destination])))
        end
    end.
Proof.
  unfold _drop_all. rewrite bind_run. simpl. rewrite bind_run, pcall_run.
  destruct (fails _ _ _); [reflexivity|].
  rewrite bind_run, pcall_run. simpl.
  destruct (fails _ _ _); simpl; rewrite <- ?app_assoc; [reflexivity|].
  rewrite pcall_run. simpl. rewrite <- ?app_assoc. reflexivity.
Qed.


(** *** Lists and dictionaries *)

Lemma alist_delete_filter {V} (k : string) (d : list (string * V)) :
  alist_delete k d = filter (fun kv => kv.1 ≠ k) d.
Proof.
  induction d as [|[k' v] r IH]; [reflexivity|]. simpl.
  destruct (decide (k' = k)) as [->|Hne].
  - rewrite filter_cons_False by (simpl; tauto). exact IH.
  - rewrite filter_cons_True by exact Hne. by rewrite IH.
Qed.

Lemma alist_lookup_filter_notin {V} (names : list string) (n : string)
    (d : list (string * V)) :
  alist_lookup n (filter (fun kv => kv.1 ∉ names) d) =
    if bool_decide (n ∈ names) then None else alist_lookup n d.
Proof.
  induction d as [|[k' v] r IH]; [by case_bool_decide|].
  destruct (decide (k' ∈ names)) as [Hk|Hk].
  - rewrite filter_cons_False by (simpl; tauto). rewrite IH. simpl.
    destruct (decide (k' = n)) as [->|]; [|done]. by rewrite bool_decide_true.
  - rewrite filter_cons_True by exact Hk. simpl. rewrite IH.
    destruct (decide (k' = n)) as [->|]; [|done]. by rewrite bool_decide_false.
Qed.

Lemma alist_lookup_delete_ne {V} (n k : string) (d : list (string * V)) :
  n ≠ k -> alist_lookup n (alist_delete k d) = alist_lookup n d.
Proof.
  intros Hne. induction d as [|[k' v] r IH]; [reflexivity|]. simpl.
  destruct (decide (k' = k)) as [->|]; simpl.
  - destruct (decide (k = n)) as [->|]; [contradiction|exact IH].
  - by rewrite IH.
Qed.

(** When every name is there once, the loop of [del] goes through and
    leaves the other entries, in their order. *)
Lemma del_loop_ok (names : list string) (t : list (string * TTableSchema)) :
  NoDup names ->
  (forall n, n ∈ names -> is_Some (alist_lookup n t)) ->
  del_loop names t = (Ok tt, filter (fun kv => kv.1 ∉ names) t).
Proof.
  revert t. induction names as [|n r IH]; intros t Hnd Hin; simpl.
  - f_equal. clear Hnd Hin. induction t as [|kv t IHt]; [reflexivity|].
    rewrite filter_cons_True by apply not_elem_of_nil. f_equal. exact IHt.
  - apply NoDup_cons in Hnd as [Hn Hnd].
    destruct (Hin n) as [v ->]; [left|].
    rewrite IH; [|exact Hnd|].
    + f_equal. rewrite alist_delete_filter, list_filter_filter.
      apply list_filter_iff. intros kv. rewrite not_elem_of_cons. tauto.
    + intros m Hm. rewrite alist_lookup_delete_ne.
      * apply Hin. by right.
      * intros ->. contradiction.
Qed.

(** *** The state handle and [_create_modified_state] *)

Lemma pipeline_state_ok (p : Pipeline) (w : World) :
  exists l w0,
    pipeline_state p w = (Ok l, w0) /\
    trace w0 = trace w /\ schemas w0 = schemas w /\
    deref (heap w0) l = deref (heap w) (state_loc p) /\
    (forall l', l' ≠ l -> heap w0 !! l' = heap w !! l') /\
    (state_access p = HandsOutLive -> l = state_loc p /\ w0 = w) /\
    (state_access p = HandsOutCopy -> l ≠ state_loc p /\ heap w !! l = None).
Proof.
  unfold pipeline_state. destruct (state_access p).
  - exists (state_loc p), w. repeat split; try done.
  - set (l := fresh ({[state_loc p]} ∪ dom (heap w))).
    assert (Hl : l ∉ ({[state_loc p]} ∪ dom (heap w) : gset loc)) by apply is_fresh.
    exists l, (set_heap w (<[l := deref (heap w) (state_loc p)]> (heap w))).
    repeat split; simpl; try done.
    + unfold deref at 1. by rewrite lookup_insert_eq.
    + intros l' Hne. by rewrite lookup_insert_ne.
    + set_solver.
    + apply not_elem_of_dom. set_solver.
Qed.

Lemma create_modified_state_run (self : DropCommand) (w : World) :
  _create_modified_state (self, w) =
    match pipeline_state (pipeline self) w with
    | (Ok l, w0) =>
        if negb (drop_state self) then (Ok l, (self, w0))
        else
          let d := deref (heap w0) l in
          let '(sources, i) := drop_sources self (sources_state d) (info self) in
          (Ok l, (set_info self i,
                  set_heap w0 (<[l := with_sources d sources]> (heap w0))))
    | (Raise e, w0) => (Raise e, (self, w0))
    end.
Proof.
  unfold _create_modified_state. rewrite bind_run. simpl. rewrite bind_run.
  unfold liftW. simpl.
  destruct (pipeline_state (pipeline self) w) as [[l|e] w0]; [|reflexivity].
  destruct (negb (drop_state self)); [reflexivity|].
  rewrite bind_run. simpl.
  destruct (drop_sources _ _ _) as [sources i]. reflexivity.
Qed.

(** *** [__init__], step by step *)

Lemma init_run (p : Pipeline) (r : StrOrSeq) (n : option string) (sp : StrOrSeq)
    (a k : bool) (w : World) :
  __init__ p r n sp a k w =
    let nm := or_default n (default_schema_name p) in
    match schemas w !! nm with
    | None => (Raise (KeyError nm), w)
    | Some s =>
        match select_tables s (list_to_set (as_list r)) with
        | Raise e => (Raise e, w)
        | Ok (pat, tabs, dt, names) =>
            match compile_paths (as_list sp) with
            | Raise e => (Raise e, w)
            | Ok paths =>
                let self0 :=
                  new_self p s pat tabs dt names
                    (k || negb (bool_decide (is_Some pat))) paths a in
                match pipeline_state p w with
                | (Ok l, w0) =>
                    let d := deref (heap w0) l in
                    let '(sources, i) :=
                      drop_sources self0 (sources_state d) (info self0) in
                    (Ok (settle_drop_state (set__new_state (set_info self0 i) l)),
                     set_heap w0 (<[l := with_sources d sources]> (heap w0)))
                | (Raise e, w0) => (Raise e, w0)
                end
            end
        end
    end.
Proof.
  unfold __init__. rewrite bind_run. unfold pipeline_schemas_getitem. simpl.
  destruct (schemas w !! _) as [s|]; [|reflexivity].
  rewrite bind_run. unfold lift_result at 1.
  destruct (select_tables _ _) as [[[[pat tabs] dt] names]|e]; [|reflexivity].
  rewrite bind_run. unfold lift_result at 1.
  destruct (compile_paths _) as [paths|e]; [|reflexivity].
  rewrite bind_run. unfold with_self. rewrite create_modified_state_run. simpl.
  destruct (pipeline_state p w) as [[l|e] w0]; [|reflexivity].
  destruct (drop_sources _ _ _) as [sources i]. reflexivity.
Qed.

(** *** The loop over the sources *)

Lemma drop_source_state_eq (self : DropCommand) (name : string) (st : Json) :
  drop_source_state self name st =
    let st1 := after_resets self st in
    let resolved := resolve_paths (state_paths_to_drop self) st1 in
    (reset_keys self st, qualify name <$> resolved,
     _delete_source_state_keys resolved st1).
Proof.
  unfold drop_source_state, reset_resources, after_resets, reset_keys.
  destruct (skip_state_wipe self); reflexivity.
Qed.

Lemma drop_sources_spec (self : DropCommand) (sources : Dict) (i : _DropInfo) :
  drop_sources self sources i =
    ((fun kv => (kv.1, (drop_source_state self kv.1 kv.2).2)) <$> sources,
     info_record i
       (concat ((fun kv => (drop_source_state self kv.1 kv.2).1.1) <$> sources))
       (concat ((fun kv => (drop_source_state self kv.1 kv.2).1.2) <$> sources))).
Proof.
  revert i. induction sources as [|[name st] rest IH]; intros i; simpl.
  - destruct i; unfold info_record; simpl. by rewrite !app_nil_r.
  - destruct (drop_source_state self name st) as [[keys paths] st'] eqn:E.
    rewrite IH. simpl. f_equal.
    unfold info_record; simpl. by rewrite <- !app_assoc.
Qed.

Lemma drop_sources_ext (self self' : DropCommand) (sources : Dict) (i : _DropInfo) :
  skip_state_wipe self = skip_state_wipe self' ->
  resource_pattern self = resource_pattern self' ->
  state_paths_to_drop self = state_paths_to_drop self' ->
  drop_sources self sources i = drop_sources self' sources i.
Proof.
  intros Hs Hp Ht. revert i.
  induction sources as [|[name st] rest IH]; intros i; [reflexivity|]. simpl.
  unfold drop_source_state, reset_resources. rewrite Hs, Hp, Ht.
  destruct (negb (skip_state_wipe self')); simpl; by rewrite IH.
Qed.

Lemma settle_drop_state_fields (self : DropCommand) :
  settle_drop_state self =
    set_drop_state self
      (drop_state self
       && negb (skip_state_wipe self && bool_decide (state_paths_to_drop self = []))).
Proof.
  unfold settle_drop_state.
  destruct (skip_state_wipe self && bool_decide (state_paths_to_drop self = []));
    destruct self as [? ? ? [] ? ? ? ? ? ? ?]; reflexivity.
Qed.

(** What a successful [__init__] has computed. *)
Lemma init_inv (p : Pipeline) (r : StrOrSeq) (n : option string) (sp : StrOrSeq)
    (a k : bool) (w : World) (self : DropCommand) (w1 : World) :
  __init__ p r n sp a k w = (Ok self, w1) ->
  exists s pat tabs dt names paths l w0,
    schemas w !! or_default n (default_schema_name p) = Some s /\
    select_tables s (list_to_set (as_list r)) = Ok (pat, tabs, dt, names) /\
    compile_paths (as_list sp) = Ok paths /\
    pipeline_state p w = (Ok l, w0) /\
    pipeline self = p /\ schema self = s /\ drop_tables self = dt /\
    resource_pattern self = pat /\ tables_to_drop self = tabs /\
    skip_state_wipe self = k || negb (bool_decide (is_Some pat)) /\
    state_paths_to_drop self = paths /\ drop_all self = a /\
    _new_state self = l /\
    drop_state self = negb (skip_state_wipe self && bool_decide (paths = [])) /\
    (let d := deref (heap w0) l in
     let res := drop_sources self (sources_state d) (new_info p s tabs names a pat) in
     info self = res.2 /\
     w1 = set_heap w0 (<[l := with_sources d res.1]> (heap w0))).
Proof.
  rewrite init_run. simpl.
  destruct (schemas w !! _) as [s|] eqn:Es; [|discriminate].
  destruct (select_tables _ _) as [[[[pat tabs] dt] names]|e] eqn:Et; [|discriminate].
  destruct (compile_paths _) as [paths|e] eqn:Ep; [|discriminate].
  destruct (pipeline_state p w) as [[l|e] w0] eqn:El; [|discriminate].
  set (self0 := new_self _ _ _ _ _ _ _ _ _).
  destruct (drop_sources self0 _ _) as [sources i] eqn:Ed.
  intros [= <- <-]. exists s, pat, tabs, dt, names, paths, l, w0.
  rewrite settle_drop_state_fields. simpl.
  repeat (split; [first [reflexivity|assumption]|]).
  rewrite (drop_sources_ext _ self0) by reflexivity.
  rewrite Ed. split; reflexivity.
Qed.

Lemma init_raise (p : Pipeline) (r : StrOrSeq) (n : option string) (sp : StrOrSeq)
    (a k : bool) (w : World) (e : Exn) (w1 : World) :
  __init__ p r n sp a k w = (Raise e, w1) -> w1 = w.
Proof.
  rewrite init_run. simpl.
  destruct (schemas w !! _) as [s|]; [|congruence].
  destruct (select_tables _ _) as [[[[pat tabs] dt] names]|e']; [|congruence].
  destruct (compile_paths _) as [paths|e']; [|congruence].
  destruct (pipeline_state_ok p w) as (l & w0 & -> & _).
  destruct (drop_sources _ _ _). discriminate.
Qed.

Lemma select_tables_inv (s : Schema) (S : gset string) (pat : option REPattern)
    (tabs : list TTableSchema) (dt : bool) (names : list string) :
  select_tables s S = Ok (pat, tabs, dt, names) ->
  (S = ∅ /\ pat = None /\ tabs = [] /\ dt = false /\ names = []) \/
  (S ≠ ∅ /\ exists rp,
     compile_simple_regexes (elements S) = Ok rp /\ pat = Some rp /\
     tabs = reverse (concat (alist_values (group_tables_by_resource (schema_tables s) rp))) /\
     dt = true /\
     names = alist_keys (group_tables_by_resource (schema_tables s) rp)).
Proof.
  unfold select_tables. case_bool_decide as HS.
  - destruct (compile_simple_regexes _) as [rp|e] eqn:Ec; [|discriminate].
    intros [= <- <- <- <-]. right. split; [exact HS|]. by exists rp.
  - intros [= <- <- <- <-]. left. split; [|done].
    destruct (decide (S = ∅)); [done|contradiction].
Qed.

Lemma init_frame (p : Pipeline) (r : StrOrSeq) (n : option string) (sp : StrOrSeq)
    (a k : bool) (w : World) (self : DropCommand) (w1 : World) :
  __init__ p r n sp a k w = (Ok self, w1) ->
  pipeline self = p /\ trace w1 = trace w /\ schemas w1 = schemas w /\
  (forall l, l ≠ _new_state self -> heap w1 !! l = heap w !! l) /\
  (state_access p = HandsOutLive -> _new_state self = state_loc p) /\
  (state_access p = HandsOutCopy ->
   _new_state self ≠ state_loc p /\ heap w !! _new_state self = None).
Proof.
  intros Hi. apply init_inv in Hi
    as (s & pat & tabs & dt & names & paths & l & w0 & _ & _ & _ & Hl & Hp & _ & _
        & _ & _ & _ & _ & _ & Hn & _ & _ & ->).
  destruct (pipeline_state_ok p w) as (l' & w0' & Hl' & Ht & Hs & _ & Hh & Hlive & Hcopy).
  rewrite Hl in Hl'. injection Hl' as <- <-. rewrite Hn. simpl.
  repeat split; try done.
  - intros l' Hne. rewrite lookup_insert_ne by done. by apply Hh.
  - intros Ha. by apply Hlive.
  - by apply Hcopy.
  - by apply Hcopy.
Qed.


(** The dictionary that a successful [__init__] leaves behind [_new_state]. *)
Lemma init_new_state (p : Pipeline) (r : StrOrSeq) (n : option string) (sp : StrOrSeq)
    (a k : bool) (w : World) (self : DropCommand) (w1 : World) :
  __init__ p r n sp a k w = (Ok self, w1) ->
  deref (heap w1) (_new_state self) =
    modified_state self (deref (heap w) (state_loc p)).
Proof.
  intros Hi. apply init_inv in Hi
    as (s & pat & tabs & dt & names & paths & l & w0 & _ & _ & _ & Hl & _ & _ & _
        & _ & _ & _ & _ & _ & Hn & _ & _ & ->).
  destruct (pipeline_state_ok p w) as (l' & w0' & Hl' & _ & _ & Hd & _).
  rewrite Hl in Hl'. injection Hl' as <- <-. rewrite Hn. simpl.
  unfold deref at 1. rewrite lookup_insert_eq. simpl. rewrite Hd.
  rewrite drop_sources_spec. simpl. unfold modified_state. f_equal.
  apply list_fmap_ext. intros _ [name st] _. simpl.
  by rewrite drop_source_state_eq.
Qed.

(** [__init__] returns a command as soon as the schema is there and the
    selectors compile. *)
Lemma init_returns (p : Pipeline) (r : StrOrSeq) (n : option string) (sp : StrOrSeq)
    (a k : bool) (w : World) (s : Schema)
    (plan : option REPattern * list TTableSchema * bool * list string)
    (paths : list JSONPath) :
  schemas w !! or_default n (default_schema_name p) = Some s ->
  select_tables s (list_to_set (as_list r)) = Ok plan ->
  compile_paths (as_list sp) = Ok paths ->
  exists self w1, __init__ p r n sp a k w = (Ok self, w1).
Proof.
  intros Hs Hsel Hp. rewrite init_run. simpl. rewrite Hs, Hsel, Hp.
  destruct plan as [[[pat tabs] dt] names].
  destruct (pipeline_state_ok p w) as (l & w0 & -> & _).
  destruct (drop_sources _ _ _) as [sources i]. by eexists _, _.
Qed.

(** *** Case analysis of [__call__] *)

Ltac call_step Hc :=
  match type of Hc with
  | context [_delete_pipeline_tables _] =>
      rewrite delete_pipeline_tables_run in Hc;
      let E := fresh "Edel" in
      destruct (del_loop _ _) as [[[]|?] ?] eqn:E; simpl in Hc
  | context [_drop_destination_tables _] =>
      rewrite drop_destination_tables_run in Hc
  | context [_drop_state_keys _] =>
      rewrite drop_state_keys_run in Hc; simpl in Hc
  | context [save_schema _] =>
      rewrite save_schema_run in Hc; simpl in Hc
  | context [_drop_all _] =>
      rewrite drop_all_run in Hc; simpl in Hc
  | context [pcall _ _] =>
      rewrite pcall_run in Hc; simpl in Hc
  | context [fails ?p ?t ?c] =>
      let E := fresh "Efail" in
      destruct (fails p t c) eqn:E; simpl in Hc
  | context [is_Exception ?e] =>
      let E := fresh "Eexn" in
      destruct (is_Exception e) eqn:E; simpl in Hc
  end.

Ltac call_cases Hc :=
  unfold __call__ in Hc; rewrite bind_run in Hc; simpl in Hc;
  repeat match type of Hc with
    | context [has_pending_data ?p] =>
        let E := fresh "Epending" in destruct (has_pending_data p) eqn:E
    | context [if drop_all ?s then _ else _] =>
        let E := fresh "Eall" in destruct (drop_all s) eqn:E
    | context [drop_state ?s] =>
        let E := fresh "Estate" in destruct (drop_state s) eqn:E; simpl in Hc
    | context [drop_tables ?s] =>
        let E := fresh "Etables" in destruct (drop_tables s) eqn:E; simpl in Hc
    end;
  unfold when, try_except_reraise in Hc;
  repeat (first [ rewrite bind_run in Hc; unfold mret, M_ret in Hc; cbv beta iota in Hc
                | call_step Hc ]);
  unfold raise, mret, M_ret in Hc; simpl in Hc.

(** ** The claims *)

(** C10: a single string passed as [resources] or as [state_paths] gives the
    same command, and the same run of [drop], as the one-element collection
    holding that string. *)
Theorem single_string_same_as_singleton (p : Pipeline) (s : string)
    (other : StrOrSeq) (n : option string) (a k : bool) :
  __init__ p (Str s) n other a k = __init__ p (Seq [s]) n other a k /\
  __init__ p other n (Str s) a k = __init__ p other n (Seq [s]) a k /\
  __init__ p (Str s) n (Str s) a k = __init__ p (Seq [s]) n (Seq [s]) a k /\
  drop p (Str s) n other a k = drop p (Seq [s]) n other a k /\
  drop p other n (Str s) a k = drop p other n (Seq [s]) a k.
Proof. repeat split; reflexivity. Qed.


(** C9: when the planned names are distinct and all in the schema, removing
    them deletes exactly those entries, keeps the others in their order, and
    raises the version of the schema by one, however many tables there are;
    nothing else of the command or of the world changes. *)
Theorem delete_pipeline_tables_bumps_version_once (self : DropCommand) (w : World) :
  let names := tbl_name <$> tables_to_drop self in
  NoDup names ->
  (forall n, n ∈ names -> is_Some (alist_lookup n (schema_tables (schema self)))) ->
  exists s',
    _delete_pipeline_tables (self, w) = (Ok tt, (set_schema self s', w)) /\
    schema_tables s' = filter (fun kv => kv.1 ∉ names) (schema_tables (schema self)) /\
    (forall n, alist_lookup n (schema_tables s') =
               if bool_decide (n ∈ names) then None
               else alist_lookup n (schema_tables (schema self))) /\
    schema_version s' = (schema_version (schema self) + 1)%Z /\
    schema_name s' = schema_name (schema self).
Proof.
  intros names Hnd Hin.
  rewrite delete_pipeline_tables_run. fold names.
  rewrite (del_loop_ok names _ Hnd Hin).
  eexists. split; [reflexivity|]. simpl. split; [reflexivity|].
  split; [|done]. intros n. apply alist_lookup_filter_notin.
Qed.

Lemma concat_fmap_nil {A B} (f : A -> list B) (l : list A) :
  (forall x, f x = []) -> concat (f <$> l) = [].
Proof. intros Hf. induction l as [|x l IH]; csimpl; [done|]. by rewrite Hf, IH. Qed.

(** What the loop over the sources leaves in [info]. *)
Lemma drop_sources_info (self : DropCommand) (sources : Dict) (i : _DropInfo) :
  let i' := (drop_sources self sources i).2 in
  info_tables i' = info_tables i /\
  info_resource_names i' = info_resource_names i /\
  info_resource_states i' =
    (info_resource_states i ++ concat ((fun kv => reset_keys self kv.2) <$> sources)) /\
  info_state_paths i' =
    (info_state_paths i ++
     concat ((fun kv => qualify kv.1 <$>
                resolve_paths (state_paths_to_drop self) (after_resets self kv.2))
             <$> sources)).
Proof.
  rewrite drop_sources_spec. simpl. repeat split.
  - f_equal. f_equal. apply list_fmap_ext. intros _ [name st] _.
    by rewrite drop_source_state_eq.
  - f_equal. f_equal. apply list_fmap_ext. intros _ [name st] _.
    by rewrite drop_source_state_eq.
Qed.

Ltac trace_delta :=
  simpl; rewrite <- ?app_assoc; simpl;
  eexists; split; [first [reflexivity | symmetry; apply app_nil_r]|].

(** C6 (as amended): with an empty resource selector, whatever the other
    arguments, [drop_tables] is false, no table is planned or listed in
    [info], no resource state is reset, and calling the command leaves its
    schema as it is and never asks the destination to drop tables nor saves
    a schema; unless [drop_all] is set, it does not drop the dataset
    either. *)
Theorem empty_selector_drops_no_tables (p : Pipeline) (r : StrOrSeq)
    (n : option string) (sp : StrOrSeq) (a k : bool) (w : World)
    (self : DropCommand) (w1 : World) :
  as_list r = [] ->
  __init__ p r n sp a k w = (Ok self, w1) ->
  drop_tables self = false /\ tables_to_drop self = [] /\
  info_tables (info self) = [] /\ info_resource_states (info self) = [] /\
  forall wc res self2 w2,
    __call__ (self, wc) = (res, (self2, w2)) ->
    schema self2 = schema self /\
    exists evs, trace w2 = trace wc ++ evs /\
      forall c, c ∈ evs ->
        (forall s names, c ≠ client_drop_tables s names) /\
        (forall s, c ≠ schemas_save_schema s) /\
        (a = false -> (forall s, c ≠ client_drop_dataset s) /\ c ≠ pipeline_drop).
Proof.
  intros Hr Hi.
  apply init_inv in Hi
    as (s & pat & tabs & dt & names & paths & l & w0 & _ & Hsel & _ & _ & _ & _ & Hdt
        & Hpat & Htabs & Hskip & _ & Hall & _ & _ & Hinfo & _).
  rewrite Hr in Hsel.
  apply select_tables_inv in Hsel as [(_ & -> & -> & -> & ->)|[Hne _]];
    [|by destruct Hne].
  destruct (drop_sources_info self
              (sources_state (deref (heap w0) l)) (new_info p s [] [] a None))
    as (Hit & _ & Hirs & _).
  rewrite <- Hinfo in Hit, Hirs.
  rewrite orb_true_r in Hskip.
  split; [done|]. split; [done|]. split; [done|]. split.
  { rewrite Hirs. simpl. apply concat_fmap_nil. intros kv.
    unfold reset_keys. by rewrite Hskip. }
  intros wc res self2 w2 Hc. call_cases Hc; try congruence.
  all: injection Hc as <- <- <-; (split; [reflexivity|]); trace_delta.
  all: intros c Hin;
    repeat (apply elem_of_cons in Hin as [->|Hin]); try (by apply elem_of_nil in Hin);
    (split; [intros; discriminate|]); (split; [intros; discriminate|]);
    intros Ha; first [congruence | split; intros; discriminate].
Qed.


Lemma app_self_nil {A} (l x : list A) : l = l ++ x -> x = [].
Proof.
  intros Hl. apply (f_equal length) in Hl. rewrite length_app in Hl.
  destruct x; [done|]. simpl in Hl. lia.
Qed.

Ltac split_trace Ht :=
  repeat match type of Ht with
    | _ = ?pre ++ _ :: _ =>
        is_var pre; destruct pre as [|? pre]; simpl in Ht;
        [ first [discriminate Ht | idtac]
        | first [discriminate Ht | injection Ht as <- Ht] ]
    end.

(** C8: when the call of [load] in [__call__] raises an exception and the
    wipe of the normalized packages goes through, the wipe is the one call
    that follows, the run ends there, and the caller gets that same
    exception: [load] is called once and the error is not swallowed. *)
Theorem load_failure_wipes_then_reraises (self : DropCommand) (w : World)
    (res : Result unit) (self2 : DropCommand) (w2 : World)
    (pre post : list Call) (e : Exn) :
  __call__ (self, w) = (res, (self2, w2)) ->
  trace w2 = trace w ++ pre ++ pipeline_load true :: post ->
  fails (pipeline self) (trace w ++ pre) (pipeline_load true) = Some e ->
  is_Exception e = true ->
  fails (pipeline self) (trace w ++ pre ++ [pipeline_load true])
    wipe_normalized_packages = None ->
  res = Raise e /\ post = [wipe_normalized_packages] /\
  (forall b, pipeline_load b ∉ pre).
Proof.
  intros Hc Ht Hload Hexn Hwipe. call_cases Hc.
  all: injection Hc as <- <- <-; simpl in Ht; rewrite <- ?app_assoc in Ht;
    simpl in Ht; try (apply app_self_nil in Ht; by destruct pre);
    try apply app_inv_head in Ht; split_trace Ht.
  all: rewrite <- ?app_assoc in *; simpl in *.
  all: try congruence.
  all: try (injection Ht as <-).
  all: try (rewrite Hload in *; congruence).
  all: try (split; [congruence|]; split; [done|]; intros b Hb;
            repeat (apply elem_of_cons in Hb as [Hb|Hb]; [discriminate|]);
            by apply elem_of_nil in Hb).
Qed.

Lemma installed_copy (self : DropCommand) (h : gmap loc Dict) :
  _new_state self ≠ state_loc (pipeline self) ->
  installed self h =
    <[state_loc (pipeline self) := alist_update [] (deref h (_new_state self))]> h.
Proof.
  intros Hne. unfold installed, deref.
  rewrite lookup_insert_eq, lookup_insert_ne by done. simpl.
  by rewrite insert_insert_eq.
Qed.

Lemma installed_live (self : DropCommand) (h : gmap loc Dict) :
  _new_state self = state_loc (pipeline self) ->
  installed self h = <[state_loc (pipeline self) := []]> h.
Proof.
  intros He. unfold installed, deref. rewrite He, lookup_insert_eq. simpl.
  by rewrite insert_insert_eq.
Qed.

(** Where [__call__] writes the heap: nowhere, or in [_drop_state_keys]. *)
Lemma call_heap (self : DropCommand) (w : World) (res : Result unit)
    (self2 : DropCommand) (w2 : World) :
  __call__ (self, w) = (res, (self2, w2)) ->
  heap w2 = heap w \/
  (heap w2 = installed self (heap w) /\
   has_pending_data (pipeline self) = false /\ drop_all self = false /\
   drop_state self = true /\
   exists pre post,
     trace w2 = trace w ++ pre ++ managed_state true true :: post /\
     fails (pipeline self) (trace w ++ pre) (managed_state true true) = None /\
     if drop_tables self
     then exists s,
            pre = [client_drop_tables s (tbl_name <$> tables_to_drop self)] /\
            fails (pipeline self) (trace w)
              (client_drop_tables s (tbl_name <$> tables_to_drop self)) = None
     else pre = []).
Proof.
  intros Hc. call_cases Hc.
  all: injection Hc as <- <- <-; simpl; rewrite <- ?app_assoc; simpl.
  all: first [ by left | right ].
  all: repeat (split; [done|]).
  all: match goal with
       | Et : drop_tables _ = true |- _ => eexists [_], _
       | Et : drop_tables _ = false |- _ => eexists [], _
       end; simpl.
  all: (split; [reflexivity|]); rewrite ?app_nil_r; (split; [done|]).
  all: try done.
  all: eexists; split; [reflexivity|done].
Qed.

(** C3 (as amended): for every source of the state tree, the matching
    resources are reset first (unless the wipe is skipped), the path
    selector is then resolved against the source state as the resets left
    it, and the resolved paths are deleted from that same state; the paths
    recorded in [info] are those resolved after the resets. *)
Theorem create_modified_state_resets_then_resolves (self : DropCommand) (w : World) :
  drop_state self = true ->
  exists l self' w',
    _create_modified_state (self, w) = (Ok l, (self', w')) /\
    let d := deref (heap w) (state_loc (pipeline self)) in
    let resolved st :=
      resolve_paths (state_paths_to_drop self) (after_resets self st) in
    deref (heap w') l =
      with_sources d
        ((fun kv => (kv.1, _delete_source_state_keys (resolved kv.2)
                             (after_resets self kv.2))) <$> sources_state d) /\
    info_state_paths (info self') =
      info_state_paths (info self) ++
      concat ((fun kv => qualify kv.1 <$> resolved kv.2) <$> sources_state d) /\
    info_resource_states (info self') =
      info_resource_states (info self) ++
      concat ((fun kv => reset_keys self kv.2) <$> sources_state d).
Proof.
  intros Hds. rewrite create_modified_state_run.
  destruct (pipeline_state_ok (pipeline self) w)
    as (l & w0 & -> & _ & _ & Hd & _). rewrite Hds. simpl.
  destruct (drop_sources self _ _) as [sources i] eqn:Ed.
  exists l, (set_info self i), (set_heap w0 (<[l := with_sources (deref (heap w0) l) sources]> (heap w0))).
  split; [reflexivity|]. simpl.
  destruct (drop_sources_info self (sources_state (deref (heap w0) l)) (info self))
    as (_ & _ & Hrs & Hsp).
  pose proof (drop_sources_spec self (sources_state (deref (heap w0) l)) (info self)) as Hspec.
  rewrite Ed in Hrs, Hsp, Hspec. simpl in Hrs, Hsp. injection Hspec as -> _.
  rewrite <- Hd. split; [|by split].
  unfold deref at 1. rewrite lookup_insert_eq. simpl. f_equal.
  apply list_fmap_ext. intros _ [name st] _. simpl.
  by rewrite drop_source_state_eq.
Qed.

(** C4 (as amended): [drop_state] is true exactly when path expressions
    were given, whether or not they resolve to anything, or the wipe is not
    skipped and the resource selector is not empty.  So it is true whenever
    a resource state was reset and, for a resolver that finds nothing
    without expressions, whenever a state path was resolved. *)
Theorem drop_state_iff_paths_given_or_wipe (p : Pipeline) (r : StrOrSeq)
    (n : option string) (sp : StrOrSeq) (a k : bool) (w : World)
    (self : DropCommand) (w1 : World) :
  __init__ p r n sp a k w = (Ok self, w1) ->
  (drop_state self = true <->
   state_paths_to_drop self ≠ [] \/
   (k = false /\ (list_to_set (as_list r) : gset string) ≠ ∅)) /\
  (info_resource_states (info self) ≠ [] -> drop_state self = true) /\
  ((forall tree, resolve_paths [] tree = []) ->
   info_state_paths (info self) ≠ [] -> drop_state self = true).
Proof.
  intros Hi.
  apply init_inv in Hi
    as (s & pat & tabs & dt & names & paths & l & w0 & _ & Hsel & _ & _ & _ & _ & _
        & Hpat & _ & Hskip & Hpaths & _ & _ & Hds & Hinfo & _).
  destruct (drop_sources_info self
              (sources_state (deref (heap w0) l)) (new_info p s tabs names a pat))
    as (_ & _ & Hirs & Hisp).
  rewrite <- Hinfo in Hirs, Hisp. simpl in Hirs, Hisp.
  assert (Hsome : bool_decide (is_Some pat) = bool_decide ((list_to_set (as_list r) : gset string) ≠ ∅)).
  { apply select_tables_inv in Hsel as [(HS & -> & _)|(HS & rp & _ & -> & _)].
    - rewrite (bool_decide_false (is_Some None)) by (by intros [? ?]).
      rewrite bool_decide_false; [done|]. intros Hn. by apply Hn.
    - rewrite (bool_decide_true (is_Some (Some rp))) by (by eexists).
      by rewrite bool_decide_true. }
  rewrite Hds, Hpaths. split; [|split].
  - rewrite Hskip, Hsome.
    destruct k; simpl; repeat case_bool_decide; simpl; split; intros;
      try done; try tauto; intuition congruence.
  - intros Hne. destruct (skip_state_wipe self) eqn:Esk; [|reflexivity].
    exfalso. apply Hne. rewrite Hirs. apply concat_fmap_nil. intros kv.
    unfold reset_keys. by rewrite Esk.
  - intros Hres Hne. destruct (decide (paths = [])) as [Hp0|Hp0];
      [|rewrite (bool_decide_false _ Hp0); by destruct (skip_state_wipe self)].
    exfalso. apply Hne. rewrite Hisp. apply concat_fmap_nil. intros kv.
    by rewrite Hpaths, Hp0, Hres.
Qed.

(** *** Dependency order *)

Lemma parents_first_lookup (l : list TTableSchema) :
  parents_first l = true ->
  forall i j child parent,
    l !! i = Some child -> l !! j = Some parent ->
    tbl_parent child = Some (tbl_name parent) -> j <= i.
Proof.
  induction l as [|t rest IH]; intros Hpf i j child parent Hi Hj Hpar.
  - by rewrite lookup_nil in Hi.
  - simpl in Hpf. apply andb_true_iff in Hpf as [Hhead Hrest].
    destruct i as [|i], j as [|j]; simpl in Hi, Hj; try lia.
    + injection Hi as <-. exfalso.
      rewrite forallb_forall in Hhead.
      assert (Hin : In parent rest).
      { apply list_elem_of_In. by eapply list_elem_of_lookup_2. }
      apply Hhead in Hin. unfold is_parent_of in Hin.
      by rewrite bool_decide_true in Hin.
    + specialize (IH Hrest i j child parent Hi Hj Hpar). lia.
Qed.

Lemma reverse_children_before_parents (l : list TTableSchema) :
  parents_first l = true -> children_before_parents (reverse l).
Proof.
  intros Hpf i j child parent Hi Hj Hpar.
  apply reverse_lookup_Some in Hi as [Hi Hil].
  apply reverse_lookup_Some in Hj as [Hj Hjl].
  pose proof (parents_first_lookup l Hpf _ _ _ _ Hi Hj Hpar). lia.
Qed.

(** The plan of [__init__]: the groups of the compiled selector,
    concatenated and reversed; no table without a selector. *)
Lemma init_plan (p : Pipeline) (r : StrOrSeq) (n : option string) (sp : StrOrSeq)
    (a k : bool) (w : World) (self : DropCommand) (w1 : World) :
  __init__ p r n sp a k w = (Ok self, w1) ->
  schemas w !! or_default n (default_schema_name p) = Some (schema self) /\
  info_tables (info self) = tbl_name <$> tables_to_drop self /\
  match resource_pattern self with
  | None =>
      (list_to_set (as_list r) : gset string) = ∅ /\ tables_to_drop self = []
  | Some pat =>
      (list_to_set (as_list r) : gset string) ≠ ∅ /\
      compile_simple_regexes (elements (list_to_set (as_list r) : gset string)) = Ok pat /\
      tables_to_drop self =
        reverse (concat (alist_values
                           (group_tables_by_resource (schema_tables (schema self)) pat)))
  end.
Proof.
  intros Hi.
  apply init_inv in Hi
    as (s & pat & tabs & dt & names & paths & l & w0 & Hs & Hsel & _ & _ & _ & Hsch & _
        & Hpat & Htabs & _ & _ & _ & _ & _ & Hinfo & _).
  destruct (drop_sources_info self
              (sources_state (deref (heap w0) l)) (new_info p s tabs names a pat))
    as (Hit & _).
  rewrite <- Hinfo in Hit. simpl in Hit.
  rewrite Hsch, Hpat, Htabs, Hit. split; [exact Hs|]. split; [reflexivity|].
  apply select_tables_inv in Hsel
    as [(HS & -> & -> & _)|(HS & rp & Hc & -> & -> & _)]; done.
Qed.

Lemma parents_first_app (l1 l2 : list TTableSchema) :
  parents_first (l1 ++ l2) = true <->
  parents_first l1 = true /\ parents_first l2 = true /\
  forall x y, x ∈ l1 -> y ∈ l2 -> is_parent_of y x = false.
Proof.
  induction l1 as [|t l1 IH]; simpl.
  - split; [|tauto]. intros Hp. repeat split; [exact Hp|].
    intros x y Hx. by apply elem_of_nil in Hx.
  - rewrite forallb_app, !andb_true_iff, IH, !forallb_forall. split.
    + intros [[H1 H2] (H3 & H4 & H5)]. repeat split; try done.
      intros x y Hx Hy. apply elem_of_cons in Hx as [->|Hx]; [|by apply H5].
      apply list_elem_of_In, H2 in Hy. by apply negb_true_iff in Hy.
    + intros ([H1 H3] & H4 & H5). repeat split; try done.
      * intros y Hy. apply negb_true_iff, H5; [by left|by apply list_elem_of_In].
      * intros x y Hx Hy. apply H5; [by right|done].
Qed.

(** ** More of the module *)

(** *** [retry_load] *)

(** X1: a terminal exception, or one raised while a terminal exception was
    handled, is never retried, whatever steps are allowed. *)
Theorem retry_load_never_on_terminal (steps : list TPipelineStep) (ex : PyException) :
  is_TerminalException ex = true \/
  (exists c, __context__ ex = Some c /\ is_TerminalException c = true) ->
  retry_load steps ex = false.
Proof.
  intros Hterm. unfold retry_load.
  destruct (match pipeline_step_failed ex with Some _ => _ | None => _ end);
    [reflexivity|].
  destruct Hterm as [->|(c & -> & ->)]; [reflexivity|].
  by rewrite orb_true_r.
Qed.

(** X2: a [PipelineStepFailed] is retried only when its step is among the
    allowed steps; with the default, only a failure of the load step. *)
Theorem retry_load_only_on_allowed_steps (steps : list TPipelineStep)
    (ex : PyException) (step : TPipelineStep) :
  pipeline_step_failed ex = Some step ->
  (retry_load steps ex = true -> step ∈ steps) /\
  (retry_load default_retry_steps ex = true -> step = "load") /\
  retry_load [] ex = false.
Proof.
  intros Hstep. unfold retry_load. rewrite Hstep. split; [|split].
  - case_bool_decide; [done|discriminate].
  - case_bool_decide as Hin; [|discriminate]. intros _.
    by apply list_elem_of_singleton in Hin.
  - rewrite bool_decide_false; [done|apply not_elem_of_nil].
Qed.

(** X3: allowing more steps never turns a retry into a refusal. *)
Theorem retry_load_monotone (steps steps' : list TPipelineStep) (ex : PyException) :
  (forall step, step ∈ steps -> step ∈ steps') ->
  retry_load steps ex = true -> retry_load steps' ex = true.
Proof.
  intros Hsub. unfold retry_load.
  destruct (pipeline_step_failed ex) as [step|]; [|done].
  case_bool_decide as Hin; [|discriminate]. simpl.
  by rewrite bool_decide_true by by apply Hsub.
Qed.

(** X4: an exception that is not terminal, whose direct [__context__], if
    any, is not terminal, and whose step, if it is a [PipelineStepFailed],
    is allowed, is retried; only the direct context is looked at, so a
    terminal exception deeper in the chain of contexts does not prevent the
    retry. *)
Theorem retry_load_retries_the_rest (steps : list TPipelineStep) (ex : PyException) :
  is_TerminalException ex = false ->
  (forall c, __context__ ex = Some c -> is_TerminalException c = false) ->
  (forall step, pipeline_step_failed ex = Some step -> step ∈ steps) ->
  retry_load steps ex = true.
Proof.
  intros Hterm Hctx Hstep. unfold retry_load. rewrite Hterm.
  destruct (pipeline_step_failed ex) as [step|].
  - rewrite bool_decide_true by by apply Hstep. simpl.
    destruct (__context__ ex) as [c|]; [|done]. by rewrite (Hctx c).
  - destruct (__context__ ex) as [c|]; [|done]. by rewrite (Hctx c).
Qed.

(** *** Construction *)

(** X5: when the wipe of resource states is skipped (asked for, or no
    resource selector), no resource state is recorded and the state paths
    that [info] records are, source by source, what [_list_state_paths]
    finds in the state the pipeline held at construction, qualified by the
    source name. *)
Theorem recorded_state_paths_when_wipe_skipped (p : Pipeline) (r : StrOrSeq)
    (n : option string) (sp : StrOrSeq) (a k : bool) (w : World)
    (self : DropCommand) (w1 : World) :
  __init__ p r n sp a k w = (Ok self, w1) ->
  skip_state_wipe self = true ->
  info_resource_states (info self) = [] /\
  info_state_paths (info self) =
    concat ((fun kv => qualify kv.1 <$> _list_state_paths self kv.2)
            <$> sources_state (deref (heap w) (state_loc p))).
Proof.
  intros Hi Hskip.
  apply init_inv in Hi
    as (s & pat & tabs & dt & names & paths & l & w0 & _ & _ & _ & Hl & _ & _ & _
        & _ & _ & _ & _ & _ & _ & _ & Hinfo & _).
  destruct (pipeline_state_ok p w) as (l' & w0' & Hl' & _ & _ & Hd & _).
  rewrite Hl in Hl'. injection Hl' as <- <-.
  destruct (drop_sources_info self
              (sources_state (deref (heap w0) l)) (new_info p s tabs names a pat))
    as (_ & _ & Hirs & Hisp).
  rewrite <- Hinfo in Hirs, Hisp. simpl in Hirs, Hisp. rewrite Hd in Hirs, Hisp.
  split.
  - rewrite Hirs. apply concat_fmap_nil. intros kv. unfold reset_keys.
    by rewrite Hskip.
  - rewrite Hisp. f_equal. apply list_fmap_ext. intros _ kv _.
    unfold _list_state_paths, after_resets. by rewrite Hskip.
Qed.

(** X6: when the pipeline has no schema of the wanted name, [__init__], and
    so [drop], raises [KeyError] with that name and leaves the world as it
    is: no copy of the state is made and nothing is called. *)
Theorem missing_schema_raises_KeyError (p : Pipeline) (r : StrOrSeq)
    (n : option string) (sp : StrOrSeq) (a k : bool) (w : World) :
  schemas w !! or_default n (default_schema_name p) = None ->
  __init__ p r n sp a k w
  = (Raise (KeyError (or_default n (default_schema_name p))), w) /\
  drop p r n sp a k w
  = (Raise (KeyError (or_default n (default_schema_name p))), w).
Proof.
  intros Hs.
  assert (Hi : __init__ p r n sp a k w
               = (Raise (KeyError (or_default n (default_schema_name p))), w)).
  { rewrite init_run. simpl. by rewrite Hs. }
  split; [exact Hi|]. unfold drop. rewrite bind_run. by rewrite Hi.
Qed.

(** X7: when the resource selectors or the path expressions do not compile,
    [drop] raises the error of the compilation and leaves the world as it
    is. *)
Theorem selector_error_leaves_world (p : Pipeline) (r : StrOrSeq)
    (n : option string) (sp : StrOrSeq) (a k : bool) (w : World) (s : Schema)
    (e : Exn) :
  schemas w !! or_default n (default_schema_name p) = Some s ->
  ((list_to_set (as_list r) : gset string) ≠ ∅ /\
   compile_simple_regexes (elements (list_to_set (as_list r) : gset string)) = Raise e) \/
  ((exists plan, select_tables s (list_to_set (as_list r)) = Ok plan) /\
   compile_paths (as_list sp) = Raise e) ->
  drop p r n sp a k w = (Raise e, w).
Proof.
  intros Hs Hc. unfold drop. rewrite bind_run, init_run. simpl. rewrite Hs.
  destruct Hc as [[HS Hc]|[[plan Hplan] Hc]].
  - unfold select_tables. rewrite bool_decide_true by done. by rewrite Hc.
  - rewrite Hplan. destruct plan as [[[pat tabs] dt] names]. by rewrite Hc.
Qed.

(** X8: no schema name, the empty name and the default name of the pipeline
    all select the default schema. *)
Theorem schema_name_falls_back_to_default (p : Pipeline) (r : StrOrSeq)
    (sp : StrOrSeq) (a k : bool) :
  __init__ p r (Some "") sp a k = __init__ p r None sp a k /\
  __init__ p r (Some (default_schema_name p)) sp a k = __init__ p r None sp a k.
Proof.
  split; [reflexivity|]. unfold __init__, or_default.
  by destruct (decide (default_schema_name p = "")) as [->|].
Qed.

(** X9: the resources are a set: naming again a resource that is already
    listed changes nothing. *)
Theorem repeated_resource_changes_nothing (p : Pipeline) (l : list string)
    (x : string) (n : option string) (sp : StrOrSeq) (a k : bool) :
  x ∈ l ->
  __init__ p (Seq (l ++ [x])) n sp a k = __init__ p (Seq l) n sp a k /\
  drop p (Seq (l ++ [x])) n sp a k = drop p (Seq l) n sp a k.
Proof.
  intros Hx.
  assert (HS : (list_to_set (l ++ [x]) : gset string) = list_to_set l).
  { apply set_eq. intros y. rewrite list_to_set_app_L, elem_of_union.
    rewrite !elem_of_list_to_set, list_elem_of_singleton.
    split; [intros [Hy| ->]|intros Hy]; auto. }
  assert (Hi : __init__ p (Seq (l ++ [x])) n sp a k = __init__ p (Seq l) n sp a k).
  { unfold __init__. simpl. by rewrite HS. }
  split; [exact Hi|]. unfold drop. by rewrite Hi.
Qed.

(** X10: with no resource selector, no path expression and no [drop_all],
    [drop] on a pipeline without pending data returns at once: it calls
    nothing (no normalize, no load), saves no schema, and leaves the
    dictionary of the pipeline as it is when the [state] property hands out
    a copy. *)
Theorem nothing_to_drop_returns_at_once (p : Pipeline) (r : StrOrSeq)
    (n : option string) (sp : StrOrSeq) (k : bool) (w : World) (s : Schema) :
  has_pending_data p = false ->
  as_list r = [] ->
  compile_paths (as_list sp) = Ok [] ->
  schemas w !! or_default n (default_schema_name p) = Some s ->
  exists w',
    drop p r n sp false k w = (Ok tt, w') /\
    trace w' = trace w /\ schemas w' = schemas w /\
    (state_access p = HandsOutCopy -> heap w' !! state_loc p = heap w !! state_loc p).
Proof.
  intros Hp Hr Hc Hs.
  assert (Hsel : select_tables s (list_to_set (as_list r)) = Ok (None, [], false, [])).
  { rewrite Hr. unfold select_tables. by rewrite bool_decide_false by (intros Hn; by apply Hn). }
  destruct (init_returns p r n sp false k w s _ _ Hs Hsel Hc) as (self & w1 & Hi).
  destruct (init_frame _ _ _ _ _ _ _ _ _ Hi) as (Hpipe & Ht & Hsch & Hh & _ & Hcopy).
  apply init_inv in Hi as Hinv.
  destruct Hinv as (s' & pat & tabs & dt & names & paths & l & w0 & Hs' & Hsel' & Hc' & _
                    & _ & _ & Hdt & _ & _ & Hskip & _ & Hall & _ & Hds & _).
  rewrite Hs in Hs'. injection Hs' as <-.
  rewrite Hsel in Hsel'. injection Hsel' as <- <- <- <-.
  rewrite Hc in Hc'. injection Hc' as <-.
  rewrite Hskip in Hds. rewrite orb_true_r in Hds. simpl in Hds.
  exists w1. split.
  - unfold drop. rewrite bind_run, Hi, bind_run. unfold with_self, __call__.
    rewrite bind_run. simpl. by rewrite Hpipe, Hp, Hall, Hds, Hdt.
  - split; [exact Ht|]. split; [exact Hsch|].
    intros Ha. apply Hh. destruct (Hcopy Ha) as [Hne _]. congruence.
Qed.

(** *** The call *)

Lemma set_schema_id (self : DropCommand) : set_schema self (schema self) = self.
Proof. by destruct self. Qed.

Lemma alist_lookup_delete_eq {V} (k : string) (d : list (string * V)) :
  alist_lookup k (alist_delete k d) = None.
Proof.
  induction d as [|[k' v'] r IH]; [done|]. simpl.
  destruct (decide (k' = k)) as [->|Hne]; [exact IH|]. simpl.
  by destruct (decide (k' = k)).
Qed.

Lemma alist_lookup_delete_Some {V} (n k : string) (v : V) (d : list (string * V)) :
  alist_lookup n (alist_delete k d) = Some v -> alist_lookup n d = Some v.
Proof.
  destruct (decide (n = k)) as [->|Hne].
  - by rewrite alist_lookup_delete_eq.
  - by rewrite alist_lookup_delete_ne.
Qed.

(** Whether it goes through or stops at a missing name, the loop of [del]
    only takes entries away. *)
Lemma del_loop_lookup_Some (names : list string) (t : list (string * TTableSchema))
    (n : string) (v : TTableSchema) :
  alist_lookup n (del_loop names t).2 = Some v -> alist_lookup n t = Some v.
Proof.
  revert t. induction names as [|m r IH]; intros t; simpl; [done|].
  destruct (alist_lookup m t); [|done].
  intros Hl. apply IH in Hl. by eapply alist_lookup_delete_Some.
Qed.

Lemma del_loop_app (l1 rest : list string) (t : list (string * TTableSchema)) :
  NoDup l1 ->
  (forall m, m ∈ l1 -> is_Some (alist_lookup m t)) ->
  del_loop (l1 ++ rest) t = del_loop rest (filter (fun kv => kv.1 ∉ l1) t).
Proof.
  revert t. induction l1 as [|m r IH]; intros t Hnd Hin; simpl.
  - f_equal. clear Hnd Hin. induction t as [|kv t IHt]; [reflexivity|].
    rewrite filter_cons_True by apply not_elem_of_nil. f_equal. exact IHt.
  - apply NoDup_cons in Hnd as [Hm Hnd].
    destruct (Hin m) as [v ->]; [left|].
    rewrite IH; [|exact Hnd|].
    + f_equal. rewrite alist_delete_filter, list_filter_filter.
      apply list_filter_iff. intros kv. rewrite not_elem_of_cons. tauto.
    + intros m' Hm'. rewrite alist_lookup_delete_ne.
      * apply Hin. by right.
      * intros ->. contradiction.
Qed.

(** X11: a command whose [drop_state] is false never enters
    [managed_state] and never writes the heap: the state of the pipeline
    stays as it is whatever else the call does. *)
Theorem call_without_drop_state_keeps_state (self : DropCommand) (w : World)
    (res : Result unit) (self2 : DropCommand) (w2 : World) :
  drop_state self = false ->
  __call__ (self, w) = (res, (self2, w2)) ->
  heap w2 = heap w /\
  exists evs, trace w2 = trace w ++ evs /\
    forall c a b, c ∈ evs -> c ≠ managed_state a b.
Proof.
  intros Hds Hc. call_cases Hc; try congruence.
  all: injection Hc as <- <- <-; (split; [reflexivity|]); trace_delta.
  all: intros c a b Hin;
    repeat (apply elem_of_cons in Hin as [->|Hin]); try (by apply elem_of_nil in Hin);
    discriminate.
Qed.

(** X12: when nothing fails, a command that drops tables and state, with
    distinct planned names that are all in its schema, takes its steps in
    this order: the tables leave the schema of the command and its version
    goes up by one, the destination is asked to drop the planned names with
    that schema, the state is installed, that same schema is saved, then
    normalize and load run; nothing is wiped. *)
Theorem call_succeeds_in_order (self : DropCommand) (w : World) :
  let names := tbl_name <$> tables_to_drop self in
  let s' := bump_version
              (set_schema_tables (schema self)
                 (filter (fun kv => kv.1 ∉ names) (schema_tables (schema self)))) in
  has_pending_data (pipeline self) = false ->
  drop_all self = false ->
  drop_tables self = true ->
  drop_state self = true ->
  NoDup names ->
  (forall n, n ∈ names -> is_Some (alist_lookup n (schema_tables (schema self)))) ->
  (forall t c, fails (pipeline self) t c = None) ->
  __call__ (self, w)
  = (Ok tt,
     (set_schema self s',
      {| heap := installed self (heap w);
         schemas := <[schema_name (schema self) := s']> (schemas w);
         trace := trace w ++ [client_drop_tables s' names; managed_state true true;
                              schemas_save_schema s'; pipeline_normalize;
                              pipeline_load true] |})).
Proof.
  intros names s' Hp Ha Hdt Hds Hnd Hin Hnone.
  destruct (__call__ (self, w)) as [res [self2 w2]] eqn:Hc.
  pose proof (del_loop_ok names _ Hnd Hin) as Hdel. fold names in Hdel.
  call_cases Hc; try congruence.
  all: try (rewrite Hnone in *; discriminate).
  all: try discriminate Hdel.
  injection Hdel as ->. injection Hc as <- <- <-.
  simpl. rewrite <- !app_assoc. reflexivity.
Qed.

(** X13: when the destination refuses to drop the tables, the call raises
    that error and stops: the schema of the command has already lost the
    tables, but the state is not installed, no schema is saved and neither
    normalize nor load runs. *)
Theorem destination_failure_stops_the_call (self : DropCommand) (w : World) (e : Exn) :
  let names := tbl_name <$> tables_to_drop self in
  let s' := bump_version
              (set_schema_tables (schema self)
                 (filter (fun kv => kv.1 ∉ names) (schema_tables (schema self)))) in
  has_pending_data (pipeline self) = false ->
  drop_all self = false ->
  drop_tables self = true ->
  NoDup names ->
  (forall n, n ∈ names -> is_Some (alist_lookup n (schema_tables (schema self)))) ->
  fails (pipeline self) (trace w) (client_drop_tables s' names) = Some e ->
  __call__ (self, w)
  = (Raise e,
     (set_schema self s',
      {| heap := heap w; schemas := schemas w;
         trace := trace w ++ [client_drop_tables s' names] |})).
Proof.
  intros names s' Hp Ha Hdt Hnd Hin Hfail.
  destruct (__call__ (self, w)) as [res [self2 w2]] eqn:Hc.
  pose proof (del_loop_ok names _ Hnd Hin) as Hdel. fold names in Hdel.
  call_cases Hc; try congruence.
  all: try discriminate Hdel.
  all: injection Hdel as ->; fold names s' in Efail; rewrite Hfail in Efail;
    try discriminate.
  all: injection Efail as <-; injection Hc as <- <- <-; reflexivity.
Qed.

(** X14: when a planned name is missing from the schema, or comes a second
    time, [_delete_pipeline_tables] raises [KeyError] with that name: the
    names before it are already deleted, the version is not raised, and
    nothing is called. *)
Theorem delete_pipeline_tables_raises_KeyError (self : DropCommand) (w : World)
    (before after : list string) (n : string) :
  tbl_name <$> tables_to_drop self = before ++ n :: after ->
  NoDup before ->
  (forall m, m ∈ before -> is_Some (alist_lookup m (schema_tables (schema self)))) ->
  n ∈ before \/ alist_lookup n (schema_tables (schema self)) = None ->
  _delete_pipeline_tables (self, w)
  = (Raise (KeyError n),
     (set_schema self
        (set_schema_tables (schema self)
           (filter (fun kv => kv.1 ∉ before) (schema_tables (schema self)))), w)).
Proof.
  intros Hnames Hnd Hin Hn.
  rewrite delete_pipeline_tables_run, Hnames, (del_loop_app _ _ _ Hnd Hin). simpl.
  rewrite alist_lookup_filter_notin.
  destruct Hn as [Hn| ->].
  - by rewrite bool_decide_true.
  - by case_bool_decide.
Qed.

(** X15: when normalize raises, the call raises that error and stops there:
    load does not run and the normalized packages are not wiped. *)
Theorem normalize_failure_is_not_cleaned_up (self : DropCommand) (w : World)
    (res : Result unit) (self2 : DropCommand) (w2 : World)
    (pre post : list Call) (e : Exn) :
  __call__ (self, w) = (res, (self2, w2)) ->
  trace w2 = trace w ++ pre ++ pipeline_normalize :: post ->
  fails (pipeline self) (trace w ++ pre) pipeline_normalize = Some e ->
  res = Raise e /\ post = [].
Proof.
  intros Hc Ht Hnorm. call_cases Hc.
  all: injection Hc as <- <- <-; simpl in Ht; rewrite <- ?app_assoc in Ht;
    simpl in Ht; try (apply app_self_nil in Ht; by destruct pre);
    try apply app_inv_head in Ht; split_trace Ht.
  all: rewrite <- ?app_assoc in *; simpl in *.
  all: try congruence.
  all: try (injection Ht as <-).
  all: try (rewrite Hnorm in *; congruence).
  all: split; [congruence|done].
Qed.

(** X16: an exit that is not an [Exception] (a keyboard interrupt) raised
    by load goes through the handler untouched: nothing is wiped. *)
Theorem load_interrupt_is_not_cleaned_up (self : DropCommand) (w : World)
    (res : Result unit) (self2 : DropCommand) (w2 : World)
    (pre post : list Call) (e : Exn) :
  __call__ (self, w) = (res, (self2, w2)) ->
  trace w2 = trace w ++ pre ++ pipeline_load true :: post ->
  fails (pipeline self) (trace w ++ pre) (pipeline_load true) = Some e ->
  is_Exception e = false ->
  res = Raise e /\ post = [].
Proof.
  intros Hc Ht Hload Hexn. call_cases Hc.
  all: injection Hc as <- <- <-; simpl in Ht; rewrite <- ?app_assoc in Ht;
    simpl in Ht; try (apply app_self_nil in Ht; by destruct pre);
    try apply app_inv_head in Ht; split_trace Ht.
  all: rewrite <- ?app_assoc in *; simpl in *.
  all: try congruence.
  all: try (injection Ht as <-).
  all: try (rewrite Hload in *; congruence).
  all: split; [congruence|done].
Qed.

(** X17: when load raises and the wipe of the normalized packages raises in
    turn, the caller gets the error of the wipe, not the error of load. *)
Theorem wipe_failure_replaces_load_error (self : DropCommand) (w : World)
    (res : Result unit) (self2 : DropCommand) (w2 : World)
    (pre post : list Call) (e e' : Exn) :
  __call__ (self, w) = (res, (self2, w2)) ->
  trace w2 = trace w ++ pre ++ pipeline_load true :: post ->
  fails (pipeline self) (trace w ++ pre) (pipeline_load true) = Some e ->
  is_Exception e = true ->
  fails (pipeline self) (trace w ++ pre ++ [pipeline_load true])
    wipe_normalized_packages = Some e' ->
  res = Raise e' /\ post = [wipe_normalized_packages].
Proof.
  intros Hc Ht Hload Hexn Hwipe. call_cases Hc.
  all: injection Hc as <- <- <-; simpl in Ht; rewrite <- ?app_assoc in Ht;
    simpl in Ht; try (apply app_self_nil in Ht; by destruct pre);
    try apply app_inv_head in Ht; split_trace Ht.
  all: rewrite <- ?app_assoc in *; simpl in *.
  all: try congruence.
  all: try (injection Ht as <-).
  all: try (rewrite Hload in *; congruence).
  all: split; [congruence|done].
Qed.

(** X18: whatever happens, the call changes nothing of the command but its
    schema, and of the schema it keeps the name, takes tables away without
    adding or changing any, and raises the version by one at most. *)
Theorem call_only_deletes_tables (self : DropCommand) (w : World)
    (res : Result unit) (self2 : DropCommand) (w2 : World) :
  __call__ (self, w) = (res, (self2, w2)) ->
  self2 = set_schema self (schema self2) /\
  schema_name (schema self2) = schema_name (schema self) /\
  (forall n t, alist_lookup n (schema_tables (schema self2)) = Some t ->
               alist_lookup n (schema_tables (schema self)) = Some t) /\
  (schema_version (schema self2) = schema_version (schema self) \/
   schema_version (schema self2) = (schema_version (schema self) + 1)%Z).
Proof.
  intros Hc. call_cases Hc.
  all: injection Hc as <- <- <-; simpl.
  all: try (rewrite set_schema_id; repeat split; auto; fail).
  all: split; [reflexivity|]; split; [reflexivity|]; split; [|auto].
  all: intros n t Hl; apply (del_loop_lookup_Some (tbl_name <$> tables_to_drop self));
    by rewrite Edel.
Qed.

(** *** The state dictionaries *)

Lemma alist_set_keys {V} (k : string) (v : V) (d : list (string * V)) :
  is_Some (alist_lookup k d) -> alist_keys (alist_set k v d) = alist_keys d.
Proof.
  unfold alist_keys. induction d as [|[k' v'] r IH]; simpl.
  - by intros [? ?].
  - destruct (decide (k' = k)) as [->|]; [done|].
    intros Hs. csimpl. by rewrite IH.
Qed.

Lemma alist_lookup_set_ne {V} (n k : string) (v : V) (d : list (string * V)) :
  n ≠ k -> alist_lookup n (alist_set k v d) = alist_lookup n d.
Proof.
  intros Hne. induction d as [|[k' v'] r IH]; simpl.
  - by destruct (decide (k = n)).
  - destruct (decide (k' = k)) as [->|]; simpl.
    + by destruct (decide (k = n)).
    + by rewrite IH.
Qed.

Lemma alist_lookup_set_eq {V} (k : string) (v : V) (d : list (string * V)) :
  alist_lookup k (alist_set k v d) = Some v.
Proof.
  induction d as [|[k' v'] r IH]; simpl.
  - by destruct (decide (k = k)).
  - destruct (decide (k' = k)) as [->|Hne]; simpl.
    + by destruct (decide (k = k)).
    + by destruct (decide (k' = k)).
Qed.

Lemma alist_set_notin {V} (k : string) (v : V) (d : list (string * V)) :
  k ∉ alist_keys d -> alist_set k v d = d ++ [(k, v)].
Proof.
  unfold alist_keys. induction d as [|[k' v'] r IH]; csimpl; [done|].
  intros Hk. apply not_elem_of_cons in Hk as [Hne Hk].
  destruct (decide (k' = k)); [congruence|]. by rewrite IH.
Qed.

Lemma alist_update_app {V} (d other : list (string * V)) :
  NoDup (alist_keys other) ->
  (forall k, k ∈ alist_keys other -> k ∉ alist_keys d) ->
  alist_update d other = d ++ other.
Proof.
  unfold alist_update, alist_keys. revert d.
  induction other as [|[k v] r IH]; intros d Hnd Hdis; csimpl.
  - by rewrite app_nil_r.
  - csimpl in Hnd. apply NoDup_cons in Hnd as [Hk Hnd].
    rewrite alist_set_notin by (apply Hdis; csimpl; left).
    rewrite IH; [by rewrite <- app_assoc|exact Hnd|].
    intros k' Hk'. rewrite fmap_app, elem_of_app. csimpl.
    intros [Hd|Hs].
    + revert Hd. apply Hdis. csimpl. by right.
    + apply list_elem_of_singleton in Hs as ->. contradiction.
Qed.

Lemma deref_insert_eq (h : gmap loc Dict) (l : loc) (d : Dict) :
  deref (<[l := d]> h) l = d.
Proof. unfold deref. by rewrite lookup_insert_eq. Qed.

(** X19: construction rewrites the working state only inside its sources:
    the top-level keys stay, in their order, every entry but [sources]
    keeps its value, and the sources keep their names and their order; no
    source is added or removed. *)
Theorem state_rewrite_keeps_other_entries (p : Pipeline) (r : StrOrSeq)
    (n : option string) (sp : StrOrSeq) (a k : bool) (w : World)
    (self : DropCommand) (w1 : World) :
  __init__ p r n sp a k w = (Ok self, w1) ->
  let d := deref (heap w) (state_loc p) in
  let d' := deref (heap w1) (_new_state self) in
  alist_keys d' = alist_keys d /\
  (forall key, key ≠ "sources" -> alist_lookup key d' = alist_lookup key d) /\
  alist_keys (sources_state d') = alist_keys (sources_state d).
Proof.
  intros Hi.
  apply init_inv in Hi
    as (s & pat & tabs & dt & names & paths & l & w0 & _ & _ & _ & Hl & _ & _ & _
        & _ & _ & _ & _ & _ & Hn & _ & _ & ->).
  destruct (pipeline_state_ok p w) as (l' & w0' & Hl' & _ & _ & Hd & _).
  rewrite Hl in Hl'. injection Hl' as <- <-.
  rewrite Hn. simpl. rewrite deref_insert_eq, Hd.
  set (d := deref (heap w) (state_loc p)).
  rewrite drop_sources_spec. simpl.
  unfold with_sources, sources_state.
  destruct (alist_lookup "sources" d) as [[| | | | |srcs]|] eqn:Es; try by rewrite ?Es.
  split; [apply alist_set_keys; by rewrite Es|].
  split; [intros key Hk; by apply alist_lookup_set_ne|].
  rewrite alist_lookup_set_eq. unfold alist_keys.
  rewrite <- list_fmap_compose. by apply list_fmap_ext.
Qed.

(** X20: [_drop_state_keys] replaces, it does not merge: once
    [managed_state] is entered, with [_new_state] another dictionary than
    the managed one and its keys distinct, the managed dictionary holds
    exactly the entries of [_new_state], in their order, whatever it held
    before; no other dictionary changes and [managed_state] is the only
    call. *)
Theorem drop_state_keys_replaces_the_state (self : DropCommand) (w : World) :
  fails (pipeline self) (trace w) (managed_state true true) = None ->
  _new_state self ≠ state_loc (pipeline self) ->
  NoDup (alist_keys (deref (heap w) (_new_state self))) ->
  exists w',
    _drop_state_keys (self, w) = (Ok tt, (self, w')) /\
    deref (heap w') (state_loc (pipeline self)) = deref (heap w) (_new_state self) /\
    (forall l, l ≠ state_loc (pipeline self) -> heap w' !! l = heap w !! l) /\
    schemas w' = schemas w /\
    trace w' = trace w ++ [managed_state true true].
Proof.
  intros Hf Hne Hnd. rewrite drop_state_keys_run. simpl. rewrite Hf.
  eexists. split; [reflexivity|]. simpl. rewrite installed_copy by done.
  split; [|split; [|done]].
  - rewrite deref_insert_eq.
    rewrite alist_update_app; [done|exact Hnd|]. intros k _. apply not_elem_of_nil.
  - intros l Hl. by rewrite lookup_insert_ne.
Qed.
(** ** The state, from construction to installation *)

(** [__call__] has installed the new state as soon as [managed_state] is
    entered, whatever the steps after it do. *)
Lemma call_installs_once_entered (self : DropCommand) (w : World)
    (res : Result unit) (self2 : DropCommand) (w2 : World) (pre post : list Call) :
  __call__ (self, w) = (res, (self2, w2)) ->
  trace w2 = trace w ++ pre ++ managed_state true true :: post ->
  fails (pipeline self) (trace w ++ pre) (managed_state true true) = None ->
  heap w2 = installed self (heap w).
Proof.
  intros Hc Ht Hm. call_cases Hc.
  all: injection Hc as <- <- <-; simpl in Ht; rewrite <- ?app_assoc in Ht;
    simpl in Ht; try (apply app_self_nil in Ht; by destruct pre);
    try apply app_inv_head in Ht; split_trace Ht.
  all: rewrite <- ?app_assoc in *; simpl in *; rewrite ?app_nil_r in *.
  all: first [reflexivity | congruence].
Qed.

(** The conditions under which [__call__] reaches [managed_state]. *)
Lemma call_installs (self : DropCommand) (w : World)
    (res : Result unit) (self2 : DropCommand) (w2 : World) :
  __call__ (self, w) = (res, (self2, w2)) ->
  has_pending_data (pipeline self) = false ->
  drop_all self = false ->
  drop_state self = true ->
  (drop_tables self = true ->
   NoDup (tbl_name <$> tables_to_drop self) /\
   (forall n, n ∈ tbl_name <$> tables_to_drop self ->
              is_Some (alist_lookup n (schema_tables (schema self)))) /\
   fails (pipeline self) (trace w)
     (client_drop_tables
        (bump_version
           (set_schema_tables (schema self)
              (filter (fun kv => kv.1 ∉ tbl_name <$> tables_to_drop self)
                      (schema_tables (schema self)))))
        (tbl_name <$> tables_to_drop self)) = None) ->
  fails (pipeline self)
    (trace w ++
     if drop_tables self
     then [client_drop_tables
             (bump_version
                (set_schema_tables (schema self)
                   (filter (fun kv => kv.1 ∉ tbl_name <$> tables_to_drop self)
                           (schema_tables (schema self)))))
             (tbl_name <$> tables_to_drop self)]
     else [])
    (managed_state true true) = None ->
  heap w2 = installed self (heap w).
Proof.
  intros Hc Hp Ha Hs Htab Hm. call_cases Hc; try congruence.
  all: rewrite ?app_nil_r in Hm.
  all: try (destruct (Htab eq_refl) as (Hnd & Hin & Hf);
            rewrite (del_loop_ok _ _ Hnd Hin) in Edel;
            try discriminate Edel; injection Edel as <-).
  all: try congruence.
  all: injection Hc as <- <- <-; reflexivity.
Qed.


End Theorems.

(** * The plan against the modelled grouping *)

Import SpecModel.

Lemma alist_lookup_Some_elem {V} (k : string) (v : V) (d : list (string * V)) :
  alist_lookup k d = Some v -> (k, v) ∈ d.
Proof.
  induction d as [|[k' v'] rest IH]; simpl; [done|].
  destruct (decide (k' = k)) as [->|Hne].
  - intros [= ->]. by left.
  - intros Hl. right. by apply IH.
Qed.

Lemma alist_set_elem {V} (k : string) (v : V) (d : list (string * V))
    (kv : string * V) :
  kv ∈ alist_set k v d -> kv = (k, v) \/ kv ∈ d.
Proof.
  induction d as [|[k' v'] rest IH]; simpl.
  - intros Hin. apply list_elem_of_singleton in Hin. by left.
  - destruct (decide (k' = k)) as [->|Hne]; intros Hin.
    + apply elem_of_cons in Hin as [->|Hin]; [by left|right; by right].
    + apply elem_of_cons in Hin as [->|Hin]; [right; by left|].
      destruct (IH Hin) as [->|Hr]; [by left|right; by right].
Qed.

Lemma alist_set_NoDup {V} (k : string) (v : V) (d : list (string * V)) :
  NoDup (alist_keys d) -> NoDup (alist_keys (alist_set k v d)).
Proof.
  unfold alist_keys. induction d as [|[k' v'] rest IH]; csimpl.
  - intros _. apply NoDup_singleton.
  - intros Hnd. apply NoDup_cons in Hnd as [Hk Hnd].
    destruct (decide (k' = k)) as [->|Hne]; csimpl.
    + by apply NoDup_cons.
    + apply NoDup_cons. split; [|by apply IH].
      intros Hin. apply list_elem_of_fmap in Hin as ([k2 v2] & -> & Hin).
      apply alist_set_elem in Hin as [[= <- <-]|Hin]; [done|].
      apply Hk. apply list_elem_of_fmap. by exists (k2, v2).
Qed.

(** One more table in the group of its resource: one more table in the
    concatenated groups. *)
Lemma alist_set_snoc_perm (r : string) (t : TTableSchema)
    (acc : list (string * list TTableSchema)) :
  concat (alist_values (alist_set r (default [] (alist_lookup r acc) ++ [t]) acc))
  ≡ₚ concat (alist_values acc) ++ [t].
Proof.
  unfold alist_values. induction acc as [|[k' v'] rest IH]; csimpl; [done|].
  destruct (decide (k' = r)) as [->|Hne]; csimpl.
  - rewrite <- !app_assoc. apply Permutation_app_head, Permutation_app_comm.
  - by rewrite IH, app_assoc.
Qed.

(** It goes after the tables of the groups up to its own, and before
    tables of other resources only. *)
Lemma alist_set_snoc_split (r : string) (t : TTableSchema)
    (acc : list (string * list TTableSchema)) :
  NoDup (alist_keys acc) ->
  (forall k g x, (k, g) ∈ acc -> x ∈ g -> tbl_resource x = Some k) ->
  exists c1 c2,
    concat (alist_values acc) = c1 ++ c2 /\
    concat (alist_values (alist_set r (default [] (alist_lookup r acc) ++ [t]) acc))
    = c1 ++ t :: c2 /\
    forall y, y ∈ c2 -> tbl_resource y ≠ Some r.
Proof.
  unfold alist_keys, alist_values.
  induction acc as [|[k' v'] rest IH]; csimpl; intros Hnd Hres.
  - exists [], []. repeat split. intros y Hy. by apply elem_of_nil in Hy.
  - apply NoDup_cons in Hnd as [Hk Hnd].
    destruct (decide (k' = r)) as [->|Hne]; csimpl.
    + exists v', (concat rest.*2). split; [done|]. split; [by rewrite <- app_assoc|].
      intros y Hy Hr. apply list_elem_of_In, in_concat in Hy as (g & Hg & Hy).
      apply list_elem_of_In, list_elem_of_fmap in Hg as ([k2 g2] & -> & Hin).
      apply list_elem_of_In in Hy. simpl in Hy.
      assert (Hk2 : tbl_resource y = Some k2) by (eapply Hres; [by right|done]).
      apply Hk. apply list_elem_of_fmap. exists (k2, g2). split; [|done].
      simpl. congruence.
    + destruct IH as (c1 & c2 & H1 & H2 & H3); [done| |].
      { intros k g x Hin. apply Hres. by right. }
      exists (v' ++ c1), c2. rewrite H1, H2, <- !app_assoc. done.
Qed.

Lemma shares_resource_with_parent_spec (l : list TTableSchema)
    (child parent : TTableSchema) :
  shares_resource_with_parent l = true ->
  child ∈ l -> parent ∈ l -> is_parent_of parent child = true ->
  tbl_resource child = tbl_resource parent.
Proof.
  unfold shares_resource_with_parent. rewrite forallb_forall.
  intros Hs Hc Hp Hpar. apply list_elem_of_In, Hs in Hc.
  rewrite forallb_forall in Hc. apply list_elem_of_In, Hc in Hp.
  rewrite Hpar in Hp. simpl in Hp. by apply bool_decide_eq_true in Hp.
Qed.

(** The groups hold the tables of the schema that the pattern selects, as
    often as the schema lists them. *)
Lemma group_fold_perm (pat : list string) (tables : list (string * TTableSchema))
    (acc : list (string * list TTableSchema)) :
  concat (alist_values (foldl (group_step pat) acc tables))
  ≡ₚ concat (alist_values acc)
     ++ filter (fun t => selected (H := collaborators) pat t = true) tables.*2.
Proof.
  revert acc. induction tables as [|[name t] rest IH]; intros acc; csimpl.
  - by rewrite app_nil_r.
  - assert (Hsel : selected (H := collaborators) pat t
                   = match tbl_resource t with
                     | Some r => matches pat r
                     | None => false
                     end) by reflexivity.
    rewrite IH, filter_cons, Hsel.
    destruct (tbl_resource t) as [r|]; [destruct (matches pat r)|];
      case_decide; try done.
    by rewrite alist_set_snoc_perm, <- app_assoc.
Qed.

(** When the schema lists no table before its parent and a child belongs to
    the resource of its parent, the groups list no table before its parent
    either. *)
Lemma group_fold_parents_first (pat : list string) (L : list (string * TTableSchema)) :
  parents_first L.*2 = true ->
  shares_resource_with_parent L.*2 = true ->
  forall l seen acc,
    L = seen ++ l ->
    NoDup (alist_keys acc) ->
    (forall k g x, (k, g) ∈ acc -> x ∈ g -> tbl_resource x = Some k) ->
    (forall x, x ∈ concat (alist_values acc) -> x ∈ seen.*2) ->
    parents_first (concat (alist_values acc)) = true ->
    parents_first (concat (alist_values (foldl (group_step pat) acc l))) = true.
Proof.
  intros HL Hshare. induction l as [|[name t] l IH];
    intros seen acc HLs Hnd Hres Hseen Hpf; [exact Hpf|].
  assert (HLs' : L = (seen ++ [(name, t)]) ++ l) by by rewrite <- app_assoc.
  assert (Hseen' : forall x, x ∈ concat (alist_values acc) ->
                             x ∈ (seen ++ [(name, t)]).*2).
  { intros x Hx. rewrite fmap_app, elem_of_app. left. by apply Hseen. }
  simpl. destruct (tbl_resource t) as [r|] eqn:Er; [|by apply (IH _ _ HLs')].
  destruct (matches pat r) eqn:Em; [|by apply (IH _ _ HLs')].
  apply (IH _ _ HLs').
  - by apply alist_set_NoDup.
  - intros k g x Hin Hx. apply alist_set_elem in Hin as [[= -> ->]|Hin];
      [|by eapply Hres].
    apply elem_of_app in Hx as [Hx|Hx].
    + destruct (alist_lookup r acc) as [old|] eqn:El; simpl in Hx;
        [|by apply elem_of_nil in Hx].
      eapply Hres; [by apply alist_lookup_Some_elem|done].
    + apply list_elem_of_singleton in Hx. by subst x.
  - intros x Hx. rewrite alist_set_snoc_perm in Hx.
    apply elem_of_app in Hx as [Hx|Hx]; [by apply Hseen'|].
    apply list_elem_of_singleton in Hx. subst x.
    rewrite fmap_app, elem_of_app. right. csimpl. by left.
  - destruct (alist_set_snoc_split r t acc Hnd Hres) as (c1 & c2 & H1 & H2 & H3).
    rewrite H2. rewrite H1 in Hpf, Hseen.
    apply parents_first_app in Hpf as (Hp1 & Hp2 & Hcross).
    assert (HLt : L.*2 = seen.*2 ++ t :: l.*2) by by rewrite HLs, fmap_app.
    rewrite HLt in HL. apply parents_first_app in HL as (_ & _ & HLcross).
    apply parents_first_app. split; [exact Hp1|]. split.
    + simpl. apply andb_true_iff. split; [|exact Hp2].
      apply forallb_forall. intros u Hu. apply list_elem_of_In in Hu.
      apply negb_true_iff. destruct (is_parent_of u t) eqn:Hpar; [|done].
      exfalso. apply (H3 u Hu). rewrite <- Er. symmetry.
      apply (shares_resource_with_parent_spec L.*2); [exact Hshare| | |exact Hpar].
      * rewrite HLt, elem_of_app. right. by left.
      * rewrite HLt, elem_of_app. left. apply Hseen. rewrite elem_of_app. by right.
    + intros x y Hx Hy. apply elem_of_cons in Hy as [->|Hy]; [|by apply Hcross].
      apply HLcross; [|by left]. apply Hseen. rewrite elem_of_app. by left.
Qed.


(** * The claims on the example pipeline *)





(** C3, counterexample: the selector [users.cursor] points inside the
    resource [users] that is reset.  Resolved against the source state as
    it is before the resets it finds the cursor; the command resets first,
    finds nothing, and records no state path. *)
Lemma path_inside_reset_resource_not_resolved :
  exists self w1,
    __init__ copying (Seq ["users"]) None (Seq ["users.cursor"]) false false world0
    = (Ok self, w1) /\
    sources_state state0 =
      [("shop", JDict [("users", JDict [("cursor", JNum 41)]);
                       ("orders", JDict [("cursor", JNum 9)]);
                       ("config", JDict [("token", JStr "t0")])])] /\
    concat ((fun kv => qualify kv.1 <$> resolve_paths (state_paths_to_drop self) kv.2)
            <$> sources_state state0) = ["shop.users.cursor"] /\
    info_resource_states (info self) = ["users"] /\
    info_state_paths (info self) = [].
Proof.
  destruct (__init__ copying (Seq ["users"]) None (Seq ["users.cursor"])
              false false world0) as [[self|e] w1] eqn:Hi;
    vm_compute in Hi; [|discriminate].
  injection Hi as <- <-. eexists _, _. split; [reflexivity|].
  repeat split; vm_compute; reflexivity.
Qed.

(** C3, witness: the command for [users] on the example world. *)
Lemma create_modified_state_example :
  drop_state (users_command copying 0) = true /\
  exists l self' w',
    _create_modified_state (users_command copying 0, world0) = (Ok l, (self', w')) /\
    deref (heap w') l = state_without_users.
Proof.
  split; [reflexivity|].
  destruct (create_modified_state_resets_then_resolves
              (users_command copying 0) world0 eq_refl)
    as (l & self' & w' & Hrun & Hd & _).
  exists l, self', w'. split; [exact Hrun|]. rewrite Hd. vm_compute. reflexivity.
Defined.

(** C4, counterexample: no resource selector and a path expression that
    matches nothing in the state: nothing is reset, no path is resolved, the
    selector is empty, and [drop_state] is true. *)
Lemma drop_state_set_without_resets_or_paths :
  exists self w1,
    __init__ copying (Seq []) None (Seq ["config.missing"]) false false world0
    = (Ok self, w1) /\
    drop_state self = true /\
    info_resource_states (info self) = [] /\
    info_state_paths (info self) = [] /\
    (list_to_set (as_list (Seq [])) : gset string) = ∅.
Proof.
  destruct (__init__ copying (Seq []) None (Seq ["config.missing"])
              false false world0) as [[self|e] w1] eqn:Hi;
    vm_compute in Hi; [|discriminate].
  injection Hi as <- <-. eexists _, _. split; [reflexivity|].
  repeat split; reflexivity.
Qed.

(** C4, witness: the same arguments; [drop_state] is true because a path
    expression was given. *)
Lemma drop_state_iff_example :
  __init__ copying (Seq []) None (Seq ["config.missing"]) false false world0
  = (Ok (paths_command copying ["config.missing"] [] 2), with_copy state0) /\
  state_paths_to_drop (paths_command copying ["config.missing"] [] 2) ≠ [] /\
  drop_state (paths_command copying ["config.missing"] [] 2) = true.
Proof.
  assert (Hi : __init__ copying (Seq []) None (Seq ["config.missing"]) false false world0
               = (Ok (paths_command copying ["config.missing"] [] 2), with_copy state0))
    by (vm_compute; reflexivity).
  split; [exact Hi|]. split; [discriminate|].
  apply (proj1 (drop_state_iff_paths_given_or_wipe _ _ _ _ _ _ _ _ _ Hi)).
  left. discriminate.
Defined.



(** C6, counterexample: no selector and [drop_all]: no table is planned,
    and the call drops the whole dataset, so every table of the destination
    is removed without any selector. *)
Lemma empty_selector_drop_all_drops_dataset :
  exists w',
    drop copying (Seq []) None (Seq []) true false world0 = (Ok tt, w') /\
    (list_to_set (as_list (Seq [])) : gset string) = ∅ /\
    trace world0 = [] /\
    trace w' = [client_drop_dataset "shop"; pipeline_drop; pipeline_sync_destination].
Proof.
  destruct (drop copying (Seq []) None (Seq []) true false world0)
    as [res w'] eqn:Hd.
  vm_compute in Hd. injection Hd as <- <-. eexists.
  repeat split; reflexivity.
Qed.

(** C6, witness (scenario D): no selector and the path [config.token]: no
    table is planned, no resource state is reset, and the path is deleted
    from the copy of the state. *)
Lemma empty_selector_example :
  as_list (Seq []) = [] /\
  __init__ copying (Seq []) None (Seq ["config.token"]) false false world0
  = (Ok (paths_command copying ["config.token"] ["shop.config.token"] 2),
     with_copy state_without_token) /\
  drop_tables (paths_command copying ["config.token"] ["shop.config.token"] 2) = false /\
  tables_to_drop (paths_command copying ["config.token"] ["shop.config.token"] 2) = [] /\
  info_resource_states
    (info (paths_command copying ["config.token"] ["shop.config.token"] 2)) = [].
Proof.
  assert (Hi : __init__ copying (Seq []) None (Seq ["config.token"]) false false world0
               = (Ok (paths_command copying ["config.token"] ["shop.config.token"] 2),
                  with_copy state_without_token))
    by (vm_compute; reflexivity).
  destruct (empty_selector_drops_no_tables copying (Seq []) _ _ _ _ _ _ _ eq_refl Hi)
    as (Hdt & Htabs & _ & Hrs & _).
  split; [reflexivity|]. split; [exact Hi|]. split; [exact Hdt|].
  split; [exact Htabs|exact Hrs].
Defined.



(** C8, witness: the load fails on the example; the packages are wiped and
    the error of the load reaches the caller. *)
Lemma load_failure_example :
  __call__ (users_command copying_load_fails 2, with_copy state_without_users)
  = (Raise (CollaboratorError "load failed"),
     (set_schema (users_command copying_load_fails 2) shop_without_users,
      {| heap := <[1 := state_without_users]> (heap (with_copy state_without_users));
         schemas := <["shop" := shop_without_users]> (schemas world0);
         trace := [client_drop_tables shop_without_users ["users__addresses"; "users"];
                   managed_state true true;
                   schemas_save_schema shop_without_users;
                   pipeline_normalize; pipeline_load true;
                   wipe_normalized_packages] |})) /\
  forall res self2 w2 post,
    __call__ (users_command copying_load_fails 2, with_copy state_without_users)
    = (res, (self2, w2)) ->
    trace w2 = [client_drop_tables shop_without_users ["users__addresses"; "users"];
                managed_state true true;
                schemas_save_schema shop_without_users;
                pipeline_normalize] ++ pipeline_load true :: post ->
    res = Raise (CollaboratorError "load failed") /\
    post = [wipe_normalized_packages].
Proof.
  split; [vm_compute; reflexivity|].
  intros res self2 w2 post Hc Ht.
  destruct (load_failure_wipes_then_reraises
              (users_command copying_load_fails 2) (with_copy state_without_users)
              _ _ _ _ post
              (CollaboratorError "load failed") Hc Ht eq_refl eq_refl eq_refl)
    as (Hres & Hpost & _).
  split; [exact Hres|exact Hpost].
Defined.

(** C9, witness: the two planned tables leave the schema of the example and
    its version goes from 7 to 8. *)
Lemma delete_pipeline_tables_example :
  NoDup (tbl_name <$> tables_to_drop (users_command copying 2)) /\
  (forall n, n ∈ tbl_name <$> tables_to_drop (users_command copying 2) ->
             is_Some (alist_lookup n (schema_tables (schema (users_command copying 2))))) /\
  _delete_pipeline_tables (users_command copying 2, world0)
  = (Ok tt, (set_schema (users_command copying 2) shop_without_users, world0)) /\
  exists s',
    _delete_pipeline_tables (users_command copying 2, world0)
    = (Ok tt, (set_schema (users_command copying 2) s', world0)) /\
    schema_version s' = 8%Z.
Proof.
  assert (Hnd : NoDup (tbl_name <$> tables_to_drop (users_command copying 2))).
  { simpl. apply NoDup_cons. split; [|apply NoDup_singleton].
    rewrite list_elem_of_singleton. discriminate. }
  assert (Hin : forall n, n ∈ tbl_name <$> tables_to_drop (users_command copying 2) ->
             is_Some (alist_lookup n (schema_tables (schema (users_command copying 2))))).
  { intros n Hn. simpl in Hn.
    repeat (apply elem_of_cons in Hn as [->|Hn]); [by eexists..|].
    by apply elem_of_nil in Hn. }
  split; [exact Hnd|]. split; [exact Hin|]. split; [vm_compute; reflexivity|].
  destruct (delete_pipeline_tables_bumps_version_once
              (users_command copying 2) world0 Hnd Hin)
    as (s' & Hrun & _ & _ & Hv & _).
  exists s'. split; [exact Hrun|exact Hv].
Defined.

(** * More of the module on the examples *)

(** X1, witness. *)
Lemma retry_load_never_on_terminal_example :
  (exists c, __context__ terminal_in_context = Some c /\ is_TerminalException c = true) /\
  retry_load default_retry_steps terminal_in_context = false.
Proof.
  assert (Hc : exists c, __context__ terminal_in_context = Some c /\
                         is_TerminalException c = true)
    by (eexists; split; reflexivity).
  split; [exact Hc|]. apply retry_load_never_on_terminal. by right.
Defined.

(** X2, witness. *)
Lemma retry_load_only_on_allowed_steps_example :
  pipeline_step_failed normalize_step_failed = Some "normalize" /\
  retry_load [] normalize_step_failed = false /\
  retry_load default_retry_steps load_step_failed = true.
Proof.
  split; [reflexivity|]. split; [|reflexivity].
  apply (retry_load_only_on_allowed_steps [] normalize_step_failed "normalize" eq_refl).
Defined.

(** X3, witness. *)
Lemma retry_load_monotone_example :
  (forall step : string, step ∈ ["load"] -> step ∈ ["load"; "normalize"]) /\
  retry_load ["load"] load_step_failed = true /\
  retry_load ["load"; "normalize"] load_step_failed = true.
Proof.
  assert (Hsub : forall step : string, step ∈ ["load"] -> step ∈ ["load"; "normalize"]).
  { intros step Hs. apply list_elem_of_singleton in Hs as ->. left. }
  split; [exact Hsub|]. split; [reflexivity|].
  by apply (retry_load_monotone ["load"] ["load"; "normalize"] load_step_failed Hsub).
Defined.

(** X5, witness. *)
Lemma recorded_state_paths_example :
  __init__ copying (Seq []) None (Seq ["config.token"]) false false world0
  = (Ok (paths_command copying ["config.token"] ["shop.config.token"] 2),
     with_copy state_without_token) /\
  skip_state_wipe (paths_command copying ["config.token"] ["shop.config.token"] 2)
  = true /\
  info_state_paths (info (paths_command copying ["config.token"] ["shop.config.token"] 2))
  = concat ((fun kv => qualify kv.1 <$>
               _list_state_paths
                 (paths_command copying ["config.token"] ["shop.config.token"] 2) kv.2)
            <$> sources_state (deref (heap world0) (state_loc copying))).
Proof.
  assert (Hi : __init__ copying (Seq []) None (Seq ["config.token"]) false false world0
               = (Ok (paths_command copying ["config.token"] ["shop.config.token"] 2),
                  with_copy state_without_token))
    by (vm_compute; reflexivity).
  split; [exact Hi|]. split; [reflexivity|].
  apply (recorded_state_paths_when_wipe_skipped _ _ _ _ _ _ _ _ _ Hi eq_refl).
Defined.

(** X6, witness. *)
Lemma missing_schema_example :
  schemas world0 !! or_default (Some "other") (default_schema_name copying) = None /\
  drop copying (Seq ["users"]) (Some "other") (Seq []) false false world0
  = (Raise (KeyError "other"), world0).
Proof.
  assert (Hs : schemas world0 !! or_default (Some "other") (default_schema_name copying)
               = None) by (vm_compute; reflexivity).
  split; [exact Hs|].
  apply (missing_schema_raises_KeyError copying (Seq ["users"]) (Some "other") (Seq [])
           false false world0 Hs).
Defined.

(** X7, witness: the strict compiler refuses the empty selector. *)
Lemma selector_error_example :
  schemas world0 !! or_default None (default_schema_name copying) = Some shop /\
  compile_simple_regexes (Collaborators := strict_collaborators)
    (elements (list_to_set (as_list (Str "")) : gset string))
  = Raise (CollaboratorError "invalid pattern") /\
  drop (H := strict_collaborators) copying (Str "") None (Seq []) false false world0
  = (Raise (CollaboratorError "invalid pattern"), world0).
Proof.
  assert (Hs : schemas world0 !! or_default None (default_schema_name copying)
               = Some shop) by (vm_compute; reflexivity).
  assert (Hc : compile_simple_regexes (Collaborators := strict_collaborators)
                 (elements (list_to_set (as_list (Str "")) : gset string))
               = Raise (CollaboratorError "invalid pattern"))
    by (vm_compute; reflexivity).
  assert (Hne : (list_to_set (as_list (Str "")) : gset string) ≠ ∅).
  { intros He. apply (f_equal elements) in He. vm_compute in He. discriminate. }
  split; [exact Hs|]. split; [exact Hc|].
  apply (selector_error_leaves_world (H := strict_collaborators) copying (Str "") None
           (Seq []) false false world0 shop _ Hs).
  left. split; [exact Hne|exact Hc].
Defined.

(** X9, witness. *)
Lemma repeated_resource_example :
  "users" ∈ ["users"] /\
  __init__ copying (Seq (["users"] ++ ["users"])) None (Seq []) false false
  = __init__ copying (Seq ["users"]) None (Seq []) false false.
Proof.
  assert (Hx : "users" ∈ ["users"]) by left.
  split; [exact Hx|].
  apply (repeated_resource_changes_nothing copying ["users"] "users" None (Seq [])
           false false Hx).
Defined.

(** X10, witness. *)
Lemma nothing_to_drop_example :
  has_pending_data copying = false /\
  as_list (Seq []) = [] /\
  compile_paths (as_list (Seq [])) = Ok [] /\
  schemas world0 !! or_default None (default_schema_name copying) = Some shop /\
  exists w',
    drop copying (Seq []) None (Seq []) false false world0 = (Ok tt, w') /\
    trace w' = trace world0.
Proof.
  assert (Hs : schemas world0 !! or_default None (default_schema_name copying)
               = Some shop) by (vm_compute; reflexivity).
  assert (Hc : compile_paths (as_list (Seq [])) = Ok []) by reflexivity.
  split; [reflexivity|]. split; [reflexivity|]. split; [exact Hc|].
  split; [exact Hs|].
  destruct (nothing_to_drop_returns_at_once copying (Seq []) None (Seq []) false
              world0 shop eq_refl eq_refl Hc Hs) as (w' & Hd & Ht & _).
  exists w'. split; [exact Hd|exact Ht].
Defined.

(** X11, witness: the command for [users] with the wipe skipped. *)
Lemma call_without_drop_state_example :
  drop_state (tables_only_command copying 2) = false /\
  exists res self2 w2,
    __call__ (tables_only_command copying 2, with_copy state0) = (res, (self2, w2)) /\
    heap w2 = heap (with_copy state0).
Proof.
  split; [reflexivity|].
  destruct (__call__ (tables_only_command copying 2, with_copy state0))
    as [res [self2 w2]] eqn:Hc.
  exists res, self2, w2. split; [reflexivity|].
  apply (call_without_drop_state_keeps_state
           (tables_only_command copying 2) (with_copy state0) res self2 w2 eq_refl Hc).
Defined.

(** X12, witness: the command for [users] when nothing fails. *)
Lemma call_succeeds_in_order_example :
  has_pending_data (pipeline (users_command copying 2)) = false /\
  drop_all (users_command copying 2) = false /\
  drop_tables (users_command copying 2) = true /\
  drop_state (users_command copying 2) = true /\
  (forall t c, fails (pipeline (users_command copying 2)) t c = None) /\
  exists self2 w2,
    __call__ (users_command copying 2, with_copy state_without_users)
    = (Ok tt, (self2, w2)) /\
    schema self2 = shop_without_users /\
    trace w2 = [client_drop_tables shop_without_users ["users__addresses"; "users"];
                managed_state true true; schemas_save_schema shop_without_users;
                pipeline_normalize; pipeline_load true].
Proof.
  assert (Hnd : NoDup (tbl_name <$> tables_to_drop (users_command copying 2))).
  { simpl. apply NoDup_cons. split; [|apply NoDup_singleton].
    rewrite list_elem_of_singleton. discriminate. }
  assert (Hin : forall n, n ∈ tbl_name <$> tables_to_drop (users_command copying 2) ->
             is_Some (alist_lookup n (schema_tables (schema (users_command copying 2))))).
  { intros n Hn. simpl in Hn.
    repeat (apply elem_of_cons in Hn as [->|Hn]); [by eexists..|].
    by apply elem_of_nil in Hn. }
  assert (Hnone : forall t c, fails (pipeline (users_command copying 2)) t c = None)
    by reflexivity.
  do 4 (split; [reflexivity|]). split; [exact Hnone|].
  eexists _, _. split.
  - apply (call_succeeds_in_order (users_command copying 2)
             (with_copy state_without_users) eq_refl eq_refl eq_refl eq_refl
             Hnd Hin Hnone).
  - split; vm_compute; reflexivity.
Defined.

(** X13, witness: the destination is down. *)
Lemma destination_failure_example :
  fails (pipe false HandsOutCopy destination_fails) (trace world0)
    (client_drop_tables shop_without_users ["users__addresses"; "users"])
  = Some (CollaboratorError "destination is down") /\
  exists self2 w2,
    __call__ (users_command (pipe false HandsOutCopy destination_fails) 2,
              with_copy state_without_users)
    = (Raise (CollaboratorError "destination is down"), (self2, w2)) /\
    schema self2 = shop_without_users /\
    heap w2 = heap (with_copy state_without_users) /\
    schemas w2 = schemas world0.
Proof.
  set (cmd := users_command (pipe false HandsOutCopy destination_fails) 2).
  assert (Hnd : NoDup (tbl_name <$> tables_to_drop cmd)).
  { simpl. apply NoDup_cons. split; [|apply NoDup_singleton].
    rewrite list_elem_of_singleton. discriminate. }
  assert (Hin : forall n, n ∈ tbl_name <$> tables_to_drop cmd ->
             is_Some (alist_lookup n (schema_tables (schema cmd)))).
  { intros n Hn. simpl in Hn.
    repeat (apply elem_of_cons in Hn as [->|Hn]); [by eexists..|].
    by apply elem_of_nil in Hn. }
  split; [reflexivity|]. eexists _, _. split.
  - apply (destination_failure_stops_the_call cmd (with_copy state_without_users)
             (CollaboratorError "destination is down")
             eq_refl eq_refl eq_refl Hnd Hin eq_refl).
  - split; [vm_compute; reflexivity|]. split; reflexivity.
Defined.

(** X14, witness: the command for [users] called again on the schema that
    its first call left. *)
Lemma delete_pipeline_tables_KeyError_example :
  tbl_name <$> tables_to_drop (set_schema (users_command copying 2) shop_without_users)
  = [] ++ "users__addresses" :: ["users"] /\
  alist_lookup "users__addresses"
    (schema_tables (schema (set_schema (users_command copying 2) shop_without_users)))
  = None /\
  exists self2,
    _delete_pipeline_tables
      (set_schema (users_command copying 2) shop_without_users, world0)
    = (Raise (KeyError "users__addresses"), (self2, world0)) /\
    schema self2 = shop_without_users.
Proof.
  set (cmd := set_schema (users_command copying 2) shop_without_users).
  assert (Hin : forall m : string, m ∈ ([] : list string) ->
             is_Some (alist_lookup m (schema_tables (schema cmd))))
    by (intros m Hm; by apply elem_of_nil in Hm).
  split; [reflexivity|]. split; [reflexivity|]. eexists. split.
  - apply (delete_pipeline_tables_raises_KeyError cmd world0 [] ["users"]
             "users__addresses" eq_refl (NoDup_nil_2) Hin).
    by right.
  - reflexivity.
Defined.

(** X15, witness: normalize fails. *)
Lemma normalize_failure_example :
  exists res self2 w2,
    __call__ (users_command (pipe false HandsOutCopy normalize_fails) 2,
              with_copy state_without_users) = (res, (self2, w2)) /\
    trace w2 = trace (with_copy state_without_users) ++
               [client_drop_tables shop_without_users ["users__addresses"; "users"];
                managed_state true true; schemas_save_schema shop_without_users]
               ++ pipeline_normalize :: [] /\
    res = Raise (CollaboratorError "normalize failed").
Proof.
  destruct (__call__ (users_command (pipe false HandsOutCopy normalize_fails) 2,
                      with_copy state_without_users)) as [res [self2 w2]] eqn:Hc.
  assert (Ht : trace w2 = trace (with_copy state_without_users) ++
               [client_drop_tables shop_without_users ["users__addresses"; "users"];
                managed_state true true; schemas_save_schema shop_without_users]
               ++ pipeline_normalize :: []).
  { pose proof Hc as Hc'. vm_compute in Hc'. injection Hc' as _ _ <-. reflexivity. }
  exists res, self2, w2. split; [reflexivity|]. split; [exact Ht|].
  apply (normalize_failure_is_not_cleaned_up _ _ _ _ _ _ _
           (CollaboratorError "normalize failed") Hc Ht eq_refl).
Defined.

(** X16, witness: load is interrupted. *)
Lemma load_interrupt_example :
  exists res self2 w2,
    __call__ (users_command (pipe false HandsOutCopy load_interrupted) 2,
              with_copy state_without_users) = (res, (self2, w2)) /\
    trace w2 = trace (with_copy state_without_users) ++
               [client_drop_tables shop_without_users ["users__addresses"; "users"];
                managed_state true true; schemas_save_schema shop_without_users;
                pipeline_normalize]
               ++ pipeline_load true :: [] /\
    res = Raise (NonException "KeyboardInterrupt").
Proof.
  destruct (__call__ (users_command (pipe false HandsOutCopy load_interrupted) 2,
                      with_copy state_without_users)) as [res [self2 w2]] eqn:Hc.
  assert (Ht : trace w2 = trace (with_copy state_without_users) ++
               [client_drop_tables shop_without_users ["users__addresses"; "users"];
                managed_state true true; schemas_save_schema shop_without_users;
                pipeline_normalize]
               ++ pipeline_load true :: []).
  { pose proof Hc as Hc'. vm_compute in Hc'. injection Hc' as _ _ <-. reflexivity. }
  exists res, self2, w2. split; [reflexivity|]. split; [exact Ht|].
  apply (load_interrupt_is_not_cleaned_up _ _ _ _ _ _ _
           (NonException "KeyboardInterrupt") Hc Ht eq_refl eq_refl).
Defined.

(** X17, witness: load fails and the wipe fails too. *)
Lemma wipe_failure_example :
  exists res self2 w2,
    __call__ (users_command (pipe false HandsOutCopy load_and_wipe_fail) 2,
              with_copy state_without_users) = (res, (self2, w2)) /\
    trace w2 = trace (with_copy state_without_users) ++
               [client_drop_tables shop_without_users ["users__addresses"; "users"];
                managed_state true true; schemas_save_schema shop_without_users;
                pipeline_normalize]
               ++ pipeline_load true :: [wipe_normalized_packages] /\
    res = Raise (CollaboratorError "storage is read-only").
Proof.
  destruct (__call__ (users_command (pipe false HandsOutCopy load_and_wipe_fail) 2,
                      with_copy state_without_users)) as [res [self2 w2]] eqn:Hc.
  assert (Ht : trace w2 = trace (with_copy state_without_users) ++
               [client_drop_tables shop_without_users ["users__addresses"; "users"];
                managed_state true true; schemas_save_schema shop_without_users;
                pipeline_normalize]
               ++ pipeline_load true :: [wipe_normalized_packages]).
  { pose proof Hc as Hc'. vm_compute in Hc'. injection Hc' as _ _ <-. reflexivity. }
  exists res, self2, w2. split; [reflexivity|]. split; [exact Ht|].
  apply (wipe_failure_replaces_load_error _ _ _ _ _ _ _
           (CollaboratorError "load failed") (CollaboratorError "storage is read-only")
           Hc Ht eq_refl eq_refl eq_refl).
Defined.

(** X18, witness. *)
Lemma call_only_deletes_tables_example :
  exists res self2 w2,
    __call__ (users_command copying 2, with_copy state_without_users)
    = (res, (self2, w2)) /\
    schema_name (schema self2) = "shop" /\
    self2 = set_schema (users_command copying 2) (schema self2).
Proof.
  destruct (__call__ (users_command copying 2, with_copy state_without_users))
    as [res [self2 w2]] eqn:Hc.
  exists res, self2, w2. split; [reflexivity|].
  destruct (call_only_deletes_tables _ _ _ _ _ Hc) as (Hself & Hname & _).
  split; [exact Hname|exact Hself].
Defined.

(** X19, witness. *)
Lemma state_rewrite_keeps_other_entries_example :
  __init__ copying (Seq ["users"]) None (Seq []) false false world0
  = (Ok (users_command copying 2), with_copy state_without_users) /\
  alist_keys (deref (heap (with_copy state_without_users))
                (_new_state (users_command copying 2)))
  = alist_keys (deref (heap world0) (state_loc copying)) /\
  alist_keys (sources_state (deref (heap (with_copy state_without_users))
                               (_new_state (users_command copying 2))))
  = alist_keys (sources_state (deref (heap world0) (state_loc copying))).
Proof.
  assert (Hi : __init__ copying (Seq ["users"]) None (Seq []) false false world0
               = (Ok (users_command copying 2), with_copy state_without_users))
    by (vm_compute; reflexivity).
  split; [exact Hi|].
  destruct (state_rewrite_keeps_other_entries _ _ _ _ _ _ _ _ _ Hi)
    as (Hkeys & _ & Hsources).
  split; [exact Hkeys|exact Hsources].
Defined.

(** X20, witness. *)
Lemma drop_state_keys_replaces_example :
  fails (pipeline (users_command copying 2)) (trace (with_copy state_without_users))
    (managed_state true true) = None /\
  _new_state (users_command copying 2) ≠ state_loc (pipeline (users_command copying 2)) /\
  NoDup (alist_keys (deref (heap (with_copy state_without_users))
                       (_new_state (users_command copying 2)))) /\
  exists w',
    _drop_state_keys (users_command copying 2, with_copy state_without_users)
    = (Ok tt, (users_command copying 2, w')) /\
    deref (heap w') (state_loc (pipeline (users_command copying 2)))
    = state_without_users.
Proof.
  assert (Hne : _new_state (users_command copying 2)
                ≠ state_loc (pipeline (users_command copying 2))) by discriminate.
  assert (Hnd : NoDup (alist_keys (deref (heap (with_copy state_without_users))
                                     (_new_state (users_command copying 2))))).
  { change (NoDup ["_state_version"; "sources"]).
    apply NoDup_cons. split; [|apply NoDup_singleton].
    rewrite list_elem_of_singleton. discriminate. }
  split; [reflexivity|]. split; [exact Hne|]. split; [exact Hnd|].
  destruct (drop_state_keys_replaces_the_state (users_command copying 2)
              (with_copy state_without_users) eq_refl Hne Hnd)
    as (w' & Hrun & Hd & _).
  exists w'. split; [exact Hrun|]. rewrite Hd. reflexivity.
Defined.

(** X4, witness: a load failure raised from an exception that was itself
    raised from a terminal exception is retried. *)
Lemma retry_load_retries_the_rest_example :
  is_TerminalException terminal_two_levels_down = false /\
  (exists c cc, __context__ terminal_two_levels_down = Some c /\
                __context__ c = Some cc /\ is_TerminalException cc = true) /\
  retry_load default_retry_steps terminal_two_levels_down = true.
Proof.
  split; [reflexivity|]. split; [by eexists _, _|].
  apply retry_load_retries_the_rest.
  - reflexivity.
  - by intros c [= <-].
  - intros step [= <-]. left.
Defined.
